(** * go-share: the constrained file store (package [storage])

    A shallow embedding of [share/storage]: the [Constraints] record, the
    [directory] store with its listing cache, and the operations [Add],
    [remove], [Remove], [List] and [Serve].

    The embedding is sequential: every operation starts from a state in
    which no goroutine is inside the store, and runs to its end.  The
    store-wide lock and the cache lock are released on every path, so they
    leave no trace between operations.  The lock embedded in a
    [Constraints] value is different: [Serve] returns from its "expired"
    branch without releasing the read lock it took, so the number of read
    locks held on a record is part of the state.  An operation that waits
    for a lock nobody will release never returns; this is the outcome
    [Blocked].

    The environment of the store is modelled explicitly:
    - the wall clock and the faults of the operating system are the [Env]
      given to each call;
    - the files of the backing directory are the [disk] component of the
      state;
    - the callbacks armed with [time.AfterFunc] are the [timers] component;
    - the request handed to [Serve] is its argument: [http.ServeFile] reads
      the path of the request before it opens the file.
    Log output is not modelled. *)

From Stdlib Require Import ZArith String Ascii Bool.
From Stdlib.Strings Require Import Byte.
From stdpp Require Import gmap strings list sorting.

(** ** Go's [path], [strings] and [net/http] functions used by the store *)

Module GoPath.

Local Open Scope string_scope.

Definition is_slash (c : ascii) : bool := Ascii.eqb c "/"%char.

(** [strings.Contains(s, "/")] *)
Fixpoint ContainsSlash (s : string) : bool :=
  match s with
  | EmptyString => false
  | String c r => is_slash c || ContainsSlash r
  end.

(** The loop of [path.Base] that strips trailing slashes:
    [for len(path) > 0 && path[len(path)-1] == '/' { path = path[0 : len(path)-1] }] *)
Fixpoint stripTrailingSlashes (s : string) : string :=
  match s with
  | EmptyString => EmptyString
  | String c r =>
      match stripTrailingSlashes r with
      | EmptyString => if is_slash c then EmptyString else String c EmptyString
      | r' => String c r'
      end
  end.

(** [strings.LastIndex(s, "/")]: the index of the last slash, [-1] if none. *)
Fixpoint LastIndexSlash (s : string) : Z :=
  match s with
  | EmptyString => (-1)%Z
  | String c r =>
      let i := LastIndexSlash r in
      if (0 <=? i)%Z then (i + 1)%Z
      else if is_slash c then 0%Z else (-1)%Z
  end.

(** The slice [s[n:]]. *)
Fixpoint sliceFrom (n : nat) (s : string) : string :=
  match n, s with
  | O, _ => s
  | S n', String _ r => sliceFrom n' r
  | S _, EmptyString => EmptyString
  end.

(** [path.Base] *)
Definition Base (path : string) : string :=
  if String.eqb path "" then "."
  else
    let path := stripTrailingSlashes path in
    let i := LastIndexSlash path in
    let path := if (0 <=? i)%Z then sliceFrom (Z.to_nat (i + 1)) path else path in
    if String.eqb path "" then "/" else path.

(** What [path.Join(d.name, name)] denotes, for a [name] that is either
    ["/"] or free of slashes (the only names that reach the file system):
    a direct child of the backing directory, the directory itself, or
    its parent. *)
Inductive target :=
| Child (n : string)
| Dir
| Parent.

Definition Join (name : string) : target :=
  if String.eqb name "/" || String.eqb name "." then Dir
  else if String.eqb name ".." then Parent
  else Child name.

(** [strings.HasSuffix(s, suffix)]:
    [len(s) >= len(suffix) && s[len(s)-len(suffix):] == suffix] *)
Definition HasSuffix (s suffix : string) : bool :=
  Nat.leb (String.length suffix) (String.length s)
  && String.eqb (sliceFrom (String.length s - String.length suffix) s) suffix.

(** [isSlashRune] of [net/http]: a slash or a backslash. *)
Definition isSlashRune (c : ascii) : bool :=
  Ascii.eqb c "/"%char || Ascii.eqb c "\"%char.

(** [strings.ContainsFunc(s, isSlashRune)] *)
Fixpoint ContainsSlashRune (s : string) : bool :=
  match s with
  | EmptyString => false
  | String c r => isSlashRune c || ContainsSlashRune r
  end.

(** [strings.FieldsFunc(v, isSlashRune)]: the maximal runs of bytes
    between separators; [cur] is the run being read. *)
Fixpoint fieldsFrom (cur : string) (v : string) : list string :=
  match v with
  | EmptyString => if String.eqb cur "" then [] else [cur]
  | String c r =>
      if isSlashRune c
      then if String.eqb cur "" then fieldsFrom "" r
           else cur :: fieldsFrom "" r
      else fieldsFrom (cur ++ String c "") r
  end.

Definition FieldsFunc (v : string) : list string := fieldsFrom "" v.

(** [containsDotDot] of [net/http]: some element of the path is [".."].
    (Its first test, [strings.Contains(v, "..")], holds whenever an
    element is [".."].) *)
Definition containsDotDot (v : string) : bool :=
  existsb (String.eqb "..") (FieldsFunc v).

End GoPath.

(** ** The store *)

Module Storage.

Import GoPath.
Local Open Scope Z_scope.

Abbreviation bytes := (list Byte.byte).

(** Instants are nanoseconds since Go's zero time; the zero [time.Time]
    is [0]. *)
Abbreviation Time := Z (only parsing).

(** [type Constraints struct].  [readers] is the state of the embedded
    [sync.RWMutex] between operations: the number of read locks held. *)
Record Constraints := mkConstraints {
  readers : nat;
  Expire : Time;
  Downloads : Z;
  Public : bool;
  Delete : bool
}.

Definition with_Downloads (c : Constraints) (n : Z) : Constraints :=
  mkConstraints (readers c) (Expire c) n (Public c) (Delete c).

Definition RLock (c : Constraints) : Constraints :=
  mkConstraints (S (readers c)) (Expire c) (Downloads c) (Public c) (Delete c).

(** [constraints.Lock()] can be taken when no read lock is held. *)
Definition can_Lock (c : Constraints) : bool := Nat.eqb (readers c) 0.

(** The clock and the faults of the operating system during one call. *)
Record Env := mkEnv {
  now : Time;
  (** the OS refuses to open the file for a reason other than the ones
      modelled in [OpenFile] (permissions, name too long, ...) *)
  open_fault : bool;
  (** the number of bytes the disk still accepts; [None] is no limit *)
  write_room : option nat;
  (** the OS refuses to unlink *)
  unlink_fault : bool
}.

(** [func (c *Constraints) expired() bool] *)
Definition expired (e : Env) (c : Constraints) : bool :=
  negb (Expire c =? 0) && (Expire c <? now e).

(** [type list struct] *)
Record list_ := mkList {
  dirty : bool;
  slice : list string
}.

(** A pending [time.AfterFunc(delay, func() { d.remove(name) })]. *)
Record timer := mkTimer {
  t_name : string;
  t_delay : Z
}.

(** [type directory struct], with the files of the backing directory
    [d.name] and the pending timers. *)
Record directory := mkDirectory {
  files : gmap string Constraints;
  lst : list_;
  disk : gmap string bytes;
  timers : list timer
}.

Inductive error :=
| ErrInvalidFileName (name : string) (* Add: "invalid file name %s" *)
| ErrExist                           (* os.OpenFile: O_EXCL and the path exists *)
| ErrIsDir                           (* os.OpenFile: the path is a directory *)
| ErrOpen                            (* os.OpenFile: any other failure *)
| ErrRead                            (* io.Copy: the reader failed *)
| ErrWrite                           (* io.Copy: the write failed *)
| ErrInvalidName                     (* Serve: "Invalid file name" *)
| ErrNotStored                       (* Serve: "File not stored" *)
| ErrExpired                         (* Serve: "File recently expired" *)
| ErrLimit.                          (* Serve: "Download limit exceeded" *)

(** What [http.ServeFile] answers: [Body content] when it hands the
    regular file with these bytes to [serveContent], which sends them (all
    of them, unless headers of the request ask for a range or make the
    reply conditional; the headers are not modelled); the 404 page; the
    reply for a directory (its index page or a listing); the redirect to
    ["./"]; or the 400 page "invalid URL path". *)
Inductive response :=
| Body (content : bytes)
| Status404
| DirectoryReply
| Redirect
| BadRequest.

(** An [io.Reader]: the bytes it delivers, and whether it then fails
    instead of reporting end of file. *)
Record Reader := mkReader {
  r_data : bytes;
  r_err : bool
}.

(** The parts of an [http.Request] the program reads: [r.URL.Path],
    [r.Host], [r.FormValue], and the result of [r.FormFile("file")], the
    uploaded file with [header.Filename], or nothing when it fails. *)
Record Request := mkRequest {
  Path : string;
  Host : string;
  FormValue : string -> string;
  FormFile : option (Reader * string)
}.

(** A request that carries a path only. *)
Definition GET (path : string) : Request :=
  mkRequest path "" (fun _ => ""%string) None.

Inductive outcome (A : Type) :=
| Returns (r : A) (d : directory)
| Blocked.
Arguments Returns {A} r d.
Arguments Blocked {A}.

(** [NewDirectory], over a directory whose files are [fs]. *)
Definition NewDirectory (fs : gmap string bytes) : directory :=
  mkDirectory ∅ (mkList false []) fs [].

(** *** The operating system *)

(** [os.OpenFile(path.Join(d.name, name), O_CREATE|O_TRUNC|O_WRONLY [|O_EXCL], 0666)]:
    the key of the opened file and the directory after the open. *)
Definition OpenFile (e : Env) (name : string) (excl : bool)
    (fs : gmap string bytes) : error + (string * gmap string bytes) :=
  if open_fault e then inl ErrOpen
  else match Join name with
       | Child n =>
           if excl && bool_decide (is_Some (fs !! n)) then inl ErrExist
           else inr (n, <[n := []]> fs)
       | Dir | Parent => inl (if excl then ErrExist else ErrIsDir)
       end.

(** [io.Copy(f, file)]: the bytes that reach the file, and the error. *)
Definition Copy (e : Env) (file : Reader) : bytes * option error :=
  let data := r_data file in
  let fits := match write_room e with
              | Some k => Nat.leb (length data) k
              | None => true
              end in
  if fits then (data, if r_err file then Some ErrRead else None)
  else (take (default O (write_room e)) data, Some ErrWrite).

(** [os.Remove(path.Join(d.name, name))]; only its effect on the files of
    the backing directory is kept (the caller logs the error). *)
Definition os_Remove (e : Env) (name : string)
    (fs : gmap string bytes) : gmap string bytes :=
  if unlink_fault e then fs
  else match Join name with
       | Child n => delete n fs
       | Dir | Parent => fs
       end.

(** [http.ServeFile(w, r, path.Join(d.name, name))].  Before it opens the
    file, [ServeFile] reads [r.URL.Path]: it rejects a request whose path
    has an element [".."] (status 400), and redirects a request whose path
    ends in ["/index.html"] to ["./"], without sending the file. *)
Definition ServeFile (q : Request) (name : string) (d : directory) : response :=
  if containsDotDot (Path q) then BadRequest
  else if HasSuffix (Path q) "/index.html" then Redirect
  else match Join name with
       | Child n => match disk d !! n with
                    | Some content => Body content
                    | None => Status404
                    end
       | Dir | Parent => DirectoryReply
       end.

(** What [ServeFile] answers when the name is a regular file with these
    bytes. *)
Definition file_reply (q : Request) (content : bytes) : response :=
  if containsDotDot (Path q) then BadRequest
  else if HasSuffix (Path q) "/index.html" then Redirect
  else Body content.

(** [time.Time.Sub]: the difference, saturated to the range of
    [time.Duration]. *)
Definition Sub (t u : Time) : Z :=
  Z.max (- 2 ^ 63) (Z.min (2 ^ 63 - 1) (t - u)).

(** *** The operations *)

Definition set_dirty (public : bool) (l : list_) : list_ :=
  if public then mkList true (slice l) else l.

(** [func (d *directory) Add(file io.Reader, name string, c Constraints) error] *)
Definition Add (e : Env) (file : Reader) (name : string) (c : Constraints)
    (d : directory) : option error * directory :=
  if negb (String.eqb (Base name) name) then (Some (ErrInvalidFileName name), d)
  else
    let excl := negb (bool_decide (is_Some (files d !! name))) in
    match OpenFile e name excl (disk d) with
    | inl err => (Some err, d)
    | inr (f, fs) =>
        let (written, cerr) := Copy e file in
        let fs' := <[f := written]> fs in
        match cerr with
        | Some err => (Some err, mkDirectory (files d) (lst d) fs' (timers d))
        | None =>
            (None,
             mkDirectory (<[name := c]> (files d))
                         (set_dirty (Public c) (lst d))
                         fs'
                         (if Expire c =? 0 then timers d
                          else timers d ++ [mkTimer name (Sub (Expire c) (now e))]))
        end
    end.

(** [func (d *directory) remove(name string)] *)
Definition remove (e : Env) (name : string) (d : directory) : outcome unit :=
  match files d !! name with
  | None => Returns tt d
  | Some constraints =>
      if negb (can_Lock constraints) then Blocked
      else if negb (Downloads constraints =? -1) && negb (expired e constraints)
      then Returns tt d
      else
        Returns tt
          (mkDirectory (delete name (files d))
                       (set_dirty (Public constraints) (lst d))
                       (if Delete constraints then os_Remove e name (disk d)
                        else disk d)
                       (timers d))
  end.

(** [func (d *directory) Remove(name string)] *)
Definition Remove (name : string) (d : directory) : directory :=
  mkDirectory (delete name (files d))
              (match files d !! name with
               | Some c => set_dirty (Public c) (lst d)
               | None => lst d
               end)
              (disk d)
              (timers d).

(** The order of [sort.Strings]: bytewise lexicographic. *)
Definition str_le (s1 s2 : string) : Prop := String.leb s1 s2 = true.

#[global] Instance str_le_dec s1 s2 : Decision (str_le s1 s2).
Proof. unfold str_le. apply _. Defined.

(** The names the rebuild loop of [List] collects, sorted. *)
Definition public_names (m : gmap string Constraints) : list string :=
  merge_sort str_le
    ((filter (λ kv : string * Constraints, Public kv.2 = true) (map_to_list m)).*1).

(** [func (d *directory) List() []string] *)
Definition List (d : directory) : list string * directory :=
  let d' := if dirty (lst d)
            then mkDirectory (files d) (mkList false (public_names (files d)))
                             (disk d) (timers d)
            else d in
  (slice (lst d'), d').

(** A write through the pointer stored under [name]. *)
Definition store (name : string) (c : Constraints) (d : directory) : directory :=
  mkDirectory (<[name := c]> (files d)) (lst d) (disk d) (timers d).

(** [func (d *directory) Serve(w http.ResponseWriter, r *http.Request, name string) error] *)
Definition Serve (e : Env) (q : Request) (name : string) (d : directory)
    : outcome (error + response) :=
  if ContainsSlash name || String.eqb name ""
  then Returns (inl ErrInvalidName) d
  else
    match files d !! name with
    | None => Returns (inl ErrNotStored) d
    | Some constraints =>
        if expired e constraints
        then Returns (inl ErrExpired) (store name (RLock constraints) d)
        else if 0 <? Downloads constraints then
          if negb (can_Lock constraints) then Blocked
          else if Downloads constraints =? 1 then
            let d1 := store name (with_Downloads constraints (-1)) d in
            let reply := ServeFile q name d1 in
            match remove e name d1 with
            | Returns _ d2 => Returns (inr reply) d2
            | Blocked => Blocked
            end
          else if Downloads constraints =? -1 then Returns (inl ErrLimit) d
          else
            let d1 := store name
                        (with_Downloads constraints (Downloads constraints - 1)) d in
            Returns (inr (ServeFile q name d1)) d1
        else Returns (inr (ServeFile q name d)) d
    end.

(** A pending timer fires: it leaves the timer list and calls [remove]. *)
Definition fire (e : Env) (i : nat) (d : directory) : outcome unit :=
  match timers d !! i with
  | None => Returns tt d
  | Some t =>
      remove e (t_name t)
        (mkDirectory (files d) (lst d) (disk d) (delete i (timers d)))
  end.

(** Successive calls of [Serve] with the same request for the same name,
    one per environment. *)
Fixpoint Serve_all (es : list Env) (q : Request) (name : string)
    (d : directory)
    : outcome (list (error + response)) :=
  match es with
  | [] => Returns [] d
  | e :: es' =>
      match Serve e q name d with
      | Blocked => Blocked
      | Returns r d1 =>
          match Serve_all es' q name d1 with
          | Blocked => Blocked
          | Returns rs d2 => Returns (r :: rs) d2
          end
      end
  end.

(** *** Vocabulary of the statements *)

(** A name of a regular file of the backing directory: not empty, without
    a slash, and neither ["."] nor [".."]. *)
Definition plain_name (name : string) : Prop :=
  name <> ""%string /\ ContainsSlash name = false /\
  name <> "."%string /\ name <> ".."%string.

(** The operating system and the reader raise no fault during an [Add]. *)
Definition healthy (e : Env) (file : Reader) : Prop :=
  open_fault e = false /\ r_err file = false /\
  match write_room e with
  | Some k => (length (r_data file) <= k)%nat
  | None => True
  end.

(** A request that [http.ServeFile] answers with the file: its path has
    no element [".."] and does not end in ["/index.html"]. *)
Definition sends_file (q : Request) : Prop :=
  containsDotDot (Path q) = false /\
  HasSuffix (Path q) "/index.html" = false.

(** The state [Add] leaves when it succeeds. *)
Definition added (e : Env) (file : Reader) (name : string) (c : Constraints)
    (d : directory) : directory :=
  mkDirectory (<[name := c]> (files d))
              (set_dirty (Public c) (lst d))
              (<[name := r_data file]> (disk d))
              (if Expire c =? 0 then timers d
               else timers d ++ [mkTimer name (Sub (Expire c) (now e))]).

(** The listing cache agrees with the store: when the dirty flag is
    false, the cached slice is the sorted list of the public names. *)
Definition cache_ok (d : directory) : Prop :=
  dirty (lst d) = false -> slice (lst d) = public_names (files d).

(** *** Statements of the specification, as they are worded *)

(** The single-download scenario as worded: after [Add] with
    [Downloads = 1], the first [Serve] returns the content, the second
    fails with "Download limit exceeded" and the third with "File not
    stored". *)
Definition single_download_as_stated (e : Env) (q : Request) (file : Reader)
    (name : string) (d : directory) : Prop :=
  exists d1 d2 d3 d4,
    Add e file name (mkConstraints 0 0 1 false false) d = (None, d1) /\
    Serve e q name d1 = Returns (inr (Body (r_data file))) d2 /\
    Serve e q name d2 = Returns (inl ErrLimit) d3 /\
    Serve e q name d3 = Returns (inl ErrNotStored) d4.

(** The error priority of [Serve] as worded: "File not stored" when the
    name has no record; otherwise "File recently expired" when the
    expiration has passed; otherwise "Download limit exceeded" when the
    counter is the sentinel [-1]; success in every other case. *)
Definition Serve_priority_as_stated (e : Env) (q : Request) (name : string)
    (d : directory) : Prop :=
  match files d !! name with
  | None => exists d', Serve e q name d = Returns (inl ErrNotStored) d'
  | Some c =>
      if expired e c
      then exists d', Serve e q name d = Returns (inl ErrExpired) d'
      else if Downloads c =? -1
      then exists d', Serve e q name d = Returns (inl ErrLimit) d'
      else exists r d', Serve e q name d = Returns (inr r) d'
  end.

(** *** Runs of the store *)

(** One call into the store, or one timer firing.  [remove] is called by
    [Serve] and by the timers only. *)
Inductive step : directory -> directory -> Prop :=
| step_Add (e : Env) (file : Reader) (name : string) (c : Constraints)
    (d : directory) :
    step d (Add e file name c d).2
| step_Remove (name : string) (d : directory) :
    step d (Remove name d)
| step_List (d : directory) :
    step d (List d).2
| step_Serve (e : Env) (q : Request) (name : string) (d d' : directory)
    (r : error + response) :
    Serve e q name d = Returns r d' -> step d d'
| step_fire (e : Env) (i : nat) (d d' : directory) :
    fire e i d = Returns tt d' -> step d d'.

(** The states of a store created by [NewDirectory] over the files [fs],
    when nothing else writes to the backing directory. *)
Inductive reachable (fs : gmap string bytes) : directory -> Prop :=
| reach_init : reachable fs (NewDirectory fs)
| reach_step (d d' : directory) :
    reachable fs d -> step d d' -> reachable fs d'.

(** Every tracked name is a plain name with a file on disk. *)
Definition tracked_ok (d : directory) : Prop :=
  forall n c, files d !! n = Some c ->
    plain_name n /\ is_Some (disk d !! n).

(** The cached slice is sorted without repetition, and holds plain names
    only. *)
Definition slice_ok (d : directory) : Prop :=
  StronglySorted str_le (slice (lst d)) /\
  NoDup (slice (lst d)) /\
  forall n, n ∈ slice (lst d) -> plain_name n.

End Storage.

(** ** The server (package [share]) *)

Module Share.

Import Storage.
Local Open Scope Z_scope.

(** [type Server struct]; the storage is the directory store. *)
Record Server := mkServer {
  passwordHash : bytes;
  storage : directory
}.

(** [bytes.Equal] *)
Fixpoint bytes_Equal (a b : bytes) : bool :=
  match a, b with
  | [], [] => true
  | x :: a', y :: b' => Byte.eqb x y && bytes_Equal a' b'
  | _, _ => false
  end.

(** What the server hands to its templates or writes itself. *)
Inductive reply :=
| MessagePage (msg : string)
| ListPage (names : list string)
| FileReply (r : response)
| NotFoundPage.

Inductive http_outcome :=
| Replies (r : reply) (s : Server)
| Hangs
| Panics.

(** No tracked record has a negative counter. *)
Definition counters_ok (d : directory) : Prop :=
  forall n c, files d !! n = Some c -> 0 <= Downloads c.

Section Server.

(** The library functions the server calls: [hash] is the SHA-1 of the
    password; [parseExpire] is [time.Parse] with the layout of the form
    followed by [time.Date] in the local zone; [Atoi] is [strconv.Atoi];
    [QueryEscape] is [url.QueryEscape]. *)
Variable hash : string -> bytes.
Variable parseExpire : string -> option Z.
Variable Atoi : string -> option Z.
Variable QueryEscape : string -> string.

(** [func New(s storage.Storage, password string) *Server] *)
Definition New (s : directory) (password : string) : Server :=
  mkServer (hash password) s.

(** [func (s *Server) handleAdd(r *http.Request) string] *)
Definition handleAdd (e : Env) (r : Request) (s : Server) : string * Server :=
  if negb (bytes_Equal (hash (FormValue r "password")) (passwordHash s))
  then ("Wrong password."%string, s)
  else
    match FormFile r with
    | None => ("Error."%string, s)
    | Some (file, filename) =>
        let name := FormValue r "name" in
        let name := if String.eqb name "" then filename else name in
        if String.eqb name "" then ("Error: no file name."%string, s)
        else
          let public := negb (String.eqb (FormValue r "public") "") in
          let delete := negb (String.eqb (FormValue r "delete") "") in
          let t := FormValue r "expire" in
          match (if String.eqb t "" then Some 0 else parseExpire t) with
          | None => ("Error: invalid expiration date."%string, s)
          | Some expire =>
              let n := FormValue r "downloads" in
              match (if String.eqb n "" then Some 0 else Atoi n) with
              | None => ("Error: invalid number of downloads."%string, s)
              | Some downloads =>
                  if negb (String.eqb n "") && (downloads <? 1)
                  then ("Error: number of downloads should be positive."%string, s)
                  else
                    let c := mkConstraints O expire downloads public delete in
                    match Add e file name c (storage s) with
                    | (Some _, d') =>
                        ("Error."%string, mkServer (passwordHash s) d')
                    | (None, d') =>
                        ("Direct link: http://" +:+ Host r +:+ "/"
                           +:+ QueryEscape name,
                         mkServer (passwordHash s) d')
                    end
              end
          end
    end.

(** The name under which [handleAdd] stores the upload of a request: the
    field [name] of the form, or [header.Filename] when that is blank. *)
Definition upload_name (r : Request) : string :=
  if String.eqb (FormValue r "name") ""
  then match FormFile r with
       | Some (_, filename) => filename
       | None => ""%string
       end
  else FormValue r "name".

(** [func (s *Server) ServeHTTP(w http.ResponseWriter, r *http.Request)].
    The slice [r.URL.Path[1:]] of an empty path is out of range. *)
Definition ServeHTTP (e : Env) (r : Request) (s : Server) : http_outcome :=
  if String.eqb (Path r) "/" then
    if negb (String.eqb (FormValue r "upload") "")
    then let (msg, s') := handleAdd e r s in Replies (MessagePage msg) s'
    else let (names, d') := List (storage s) in
         Replies (ListPage names) (mkServer (passwordHash s) d')
  else
    match Path r with
    | EmptyString => Panics
    | String _ name =>
        match Serve e r name (storage s) with
        | Returns (inl _) d' => Replies NotFoundPage (mkServer (passwordHash s) d')
        | Returns (inr f) d' => Replies (FileReply f) (mkServer (passwordHash s) d')
        | Blocked => Hangs
        end
    end.

(** The states of a server created by [New] over a fresh store: requests
    that are answered, and timers that fire. *)
Inductive http_reachable (fs : gmap string bytes) (password : string)
    : Server -> Prop :=
| http_init : http_reachable fs password (New (NewDirectory fs) password)
| http_request (e : Env) (r : Request) (s s' : Server) (a : reply) :
    http_reachable fs password s ->
    ServeHTTP e r s = Replies a s' ->
    http_reachable fs password s'
| http_timer (e : Env) (i : nat) (s : Server) (d' : directory) :
    http_reachable fs password s ->
    fire e i (storage s) = Returns tt d' ->
    http_reachable fs password (mkServer (passwordHash s) d').

End Server.

(** *** Sample instances for the examples *)

(** A stand-in for the hash that tells the password ["secret"] from every
    other one. *)
Definition sample_hash (p : string) : bytes :=
  if String.eqb p "secret" then [x01] else [x00].

(** The form of an upload: the submit button, a password and a name. *)
Definition sample_form (password name : string) (key : string) : string :=
  if String.eqb key "upload" then "Upload"%string
  else if String.eqb key "password" then password
  else if String.eqb key "name" then name
  else ""%string.

Definition sample_upload (password name : string) : Request :=
  mkRequest "/" "host" (sample_form password name)
            (Some (mkReader [x68; x69] false, "file.txt"%string)).

End Share.

(** ** Facts about the path functions *)

Module GoPathFacts.

Import GoPath.
Local Open Scope string_scope.

Lemma LastIndexSlash_lower (s : string) : (-1 <= LastIndexSlash s)%Z.
Proof.
  induction s as [|c r IH]; simpl; [lia|].
  destruct (0 <=? LastIndexSlash r)%Z eqn:E; [lia|].
  destruct (is_slash c); lia.
Qed.

(** No slash is found exactly when the string contains none. *)
Lemma LastIndexSlash_none (s : string) :
  (LastIndexSlash s < 0)%Z <-> ContainsSlash s = false.
Proof.
  induction s as [|c r IH]; simpl; [split; [done|lia]|].
  pose proof (LastIndexSlash_lower r) as Hl.
  destruct (0 <=? LastIndexSlash r)%Z eqn:E.
  - apply Z.leb_le in E. split; [lia|].
    intros [_ H]%orb_false_elim. apply IH in H. lia.
  - apply Z.leb_gt in E. destruct (is_slash c); simpl.
    + split; [lia|done].
    + split; [intros _; by apply IH | lia].
Qed.

(** What follows the last slash contains no slash. *)
Lemma sliceFrom_after_last (s : string) :
  (0 <= LastIndexSlash s)%Z ->
  ContainsSlash (sliceFrom (Z.to_nat (LastIndexSlash s + 1)) s) = false.
Proof.
  induction s as [|c r IH]; simpl; [lia|].
  pose proof (LastIndexSlash_lower r) as Hl.
  destruct (0 <=? LastIndexSlash r)%Z eqn:E.
  - apply Z.leb_le in E. intros _.
    replace (Z.to_nat (LastIndexSlash r + 1 + 1))
      with (S (Z.to_nat (LastIndexSlash r + 1))) by lia.
    simpl. by apply IH.
  - apply Z.leb_gt in E. destruct (is_slash c); [|lia].
    intros _. simpl. apply LastIndexSlash_none. lia.
Qed.

Lemma stripTrailingSlashes_plain (s : string) :
  ContainsSlash s = false -> stripTrailingSlashes s = s.
Proof.
  induction s as [|c r IH]; simpl; [done|].
  intros [Hc Hr]%orb_false_elim. rewrite (IH Hr), Hc. by destruct r.
Qed.

(** The two steps of the stripping loop: a trailing slash is dropped, and
    a string that ends in another byte is left as it is. *)
Lemma stripTrailingSlashes_slash (s : string) :
  stripTrailingSlashes (s ++ "/") = stripTrailingSlashes s.
Proof.
  induction s as [|c r IH]; [done|]. simpl. by rewrite IH.
Qed.

Lemma stripTrailingSlashes_stop (s : string) (c : ascii) :
  is_slash c = false ->
  stripTrailingSlashes (s ++ String c "") = s ++ String c "".
Proof.
  intros Hc. induction s as [|a r IH]; simpl; [by rewrite Hc|].
  rewrite IH. by destruct r.
Qed.

(** The index [LastIndexSlash] returns is the one of a slash. *)
Lemma LastIndexSlash_get (s : string) :
  (0 <= LastIndexSlash s)%Z ->
  String.get (Z.to_nat (LastIndexSlash s)) s = Some "/"%char.
Proof.
  induction s as [|c r IH]; simpl; [lia|].
  pose proof (LastIndexSlash_lower r) as Hl.
  destruct (0 <=? LastIndexSlash r)%Z eqn:E.
  - apply Z.leb_le in E. intros _.
    replace (Z.to_nat (LastIndexSlash r + 1)) with (S (Z.to_nat (LastIndexSlash r)))
      by lia.
    by apply IH.
  - destruct (is_slash c) eqn:Hc; [|lia]. intros _. simpl.
    by apply Ascii.eqb_eq in Hc as ->.
Qed.

(** [path.Base] returns ["/"] or a string without a slash. *)
Lemma Base_cases (s : string) : Base s = "/" \/ ContainsSlash (Base s) = false.
Proof.
  unfold Base. destruct (String.eqb s ""); [by right|].
  set (p := stripTrailingSlashes s).
  destruct (0 <=? LastIndexSlash p)%Z eqn:E.
  - apply Z.leb_le in E. pose proof (sliceFrom_after_last p E) as H.
    destruct (String.eqb _ ""); [by left | by right].
  - apply Z.leb_gt in E. apply LastIndexSlash_none in E.
    destruct (String.eqb p ""); [by left | by right].
Qed.

(** The only name with a slash that [path.Base] leaves alone is ["/"]. *)
Lemma Base_fixed_slash (s : string) :
  Base s = s -> ContainsSlash s = true -> s = "/".
Proof.
  intros Hb Hs. destruct (Base_cases s) as [H|H]; congruence.
Qed.

Lemma Base_empty : Base "" <> "".
Proof. done. Qed.

(** A non-empty name without a slash is its own base. *)
Lemma Base_plain (s : string) :
  s <> "" -> ContainsSlash s = false -> Base s = s.
Proof.
  intros Hne Hs. unfold Base.
  destruct (String.eqb_spec s ""); [done|].
  rewrite (stripTrailingSlashes_plain s Hs).
  apply LastIndexSlash_none in Hs.
  destruct (0 <=? LastIndexSlash s)%Z eqn:E; [apply Z.leb_le in E; lia|].
  by destruct (String.eqb_spec s "").
Qed.

Example Base_examples :
  (Base "", Base "/", Base "a/b", Base "a/b/", Base "///", Base "abc", Base "..")
  = (".", "/", "b", "b", "/", "abc", "..").
Proof. reflexivity. Qed.

(** *** The path of a request *)

Lemma append_assoc (a b c : string) : ((a ++ b) ++ c = a ++ (b ++ c))%string.
Proof.
  induction a as [|x a IH]; [done|].
  change (String x ((a ++ b) ++ c) = String x (a ++ (b ++ c)))%string.
  by rewrite IH.
Qed.

Lemma append_nil_r (a : string) : (a ++ "")%string = a.
Proof.
  induction a as [|x a IH]; [done|].
  change (String x (a ++ "") = String x a)%string. by rewrite IH.
Qed.

Lemma ContainsSlashRune_slash (s : string) :
  ContainsSlashRune s = false -> ContainsSlash s = false.
Proof.
  induction s as [|c s IH]; [done|]. simpl. unfold isSlashRune, is_slash.
  intros H. apply orb_false_iff in H as [H1 H2].
  apply orb_false_iff in H1 as [-> _]. by rewrite IH.
Qed.

(** A string without separator is one field, or none when it is empty. *)
Lemma fieldsFrom_one (v cur : string) :
  ContainsSlashRune v = false ->
  fieldsFrom cur v
  = if String.eqb (cur ++ v) "" then [] else [(cur ++ v)%string].
Proof.
  revert cur. induction v as [|c v IH]; intros cur H.
  - cbn [fieldsFrom]. by rewrite append_nil_r.
  - cbn [fieldsFrom ContainsSlashRune] in *.
    apply orb_false_iff in H as [-> H].
    rewrite (IH _ H). by rewrite append_assoc.
Qed.

(** The path ["/" ++ name] of a name without separator has an element
    [".."] only when the name is [".."]. *)
Lemma containsDotDot_one (name : string) :
  ContainsSlashRune name = false ->
  containsDotDot (String "/" name) = String.eqb ".." name.
Proof.
  intros H. unfold containsDotDot, FieldsFunc.
  change (fieldsFrom "" (String "/" name)) with (fieldsFrom "" name).
  rewrite (fieldsFrom_one name "" H).
  change ("" ++ name)%string with name.
  destruct (String.eqb_spec name "") as [->|_]; [done|].
  cbn [existsb]. apply orb_false_r.
Qed.

Lemma sliceFrom_no_slash (n : nat) (s : string) :
  ContainsSlash s = false -> ContainsSlash (sliceFrom n s) = false.
Proof.
  revert s. induction n as [|n IH]; intros s H; [done|].
  destruct s as [|c s]; [done|]. simpl in *.
  apply orb_false_iff in H as [_ H]. by apply IH.
Qed.

Lemma eqb_length (a b : string) :
  String.length a <> String.length b -> String.eqb a b = false.
Proof. intros H. apply String.eqb_neq. by intros ->. Qed.

(** The path ["/" ++ name] of a name without slash ends in
    ["/index.html"] only when the name is ["index.html"]. *)
Lemma HasSuffix_index (name : string) :
  ContainsSlash name = false ->
  HasSuffix (String "/" name) "/index.html" = String.eqb name "index.html".
Proof.
  intros H. unfold HasSuffix.
  change (String.length "/index.html") with 11%nat.
  change (String.length (String "/" name)) with (S (String.length name)).
  destruct (Nat.leb_spec 11 (S (String.length name))) as [Hle|Hlt].
  - cbn [andb].
    destruct (S (String.length name) - 11)%nat as [|k] eqn:Hk.
    + cbn [sliceFrom]. cbn [String.eqb]. by rewrite Ascii.eqb_refl.
    + cbn [sliceFrom].
      rewrite (eqb_length name "index.html") by (cbn; lia).
      apply String.eqb_neq. intros Heq.
      pose proof (sliceFrom_no_slash k name H) as Hs.
      by rewrite Heq in Hs.
  - cbn [andb]. symmetry. apply eqb_length. cbn. lia.
Qed.

End GoPathFacts.

(** ** Facts about the store *)

Module StorageFacts.

Import GoPath GoPathFacts Storage.
Local Open Scope Z_scope.

Lemma plain_name_Base (name : string) : plain_name name -> Base name = name.
Proof. intros (Hne & Hs & _). by apply Base_plain. Qed.

Lemma plain_name_Join (name : string) : plain_name name -> Join name = Child name.
Proof.
  intros (Hne & Hs & Hd & Hdd). unfold Join.
  destruct (String.eqb_spec name "/") as [->|_]; [done|].
  destruct (String.eqb_spec name ".") as [->|_]; [done|].
  by destruct (String.eqb_spec name "..") as [->|_].
Qed.

Lemma Copy_healthy (e : Env) (file : Reader) :
  healthy e file -> Copy e file = (r_data file, None).
Proof.
  intros (_ & Hr & Hw). unfold Copy. rewrite Hr.
  destruct (write_room e) as [k|]; [|done].
  by apply Nat.leb_le in Hw as ->.
Qed.

(** [Add] succeeds for a plain name that is tracked, or that has no file
    on disk, when no fault occurs. *)
Lemma Add_ok (e : Env) (file : Reader) (name : string) (c : Constraints)
    (d : directory) :
  plain_name name -> healthy e file ->
  is_Some (files d !! name) \/ disk d !! name = None ->
  Add e file name c d = (None, added e file name c d).
Proof.
  intros Hp Hh Hfresh. unfold Add, OpenFile.
  rewrite (plain_name_Base name Hp), String.eqb_refl. simpl.
  destruct Hh as (Ho & Hh'). rewrite Ho, (plain_name_Join name Hp).
  assert (negb (bool_decide (is_Some (files d !! name)))
          && bool_decide (is_Some (disk d !! name)) = false) as ->.
  { destruct Hfresh as [Ht|Hn].
    - by rewrite (bool_decide_eq_true_2 _ Ht).
    - rewrite Hn. rewrite (bool_decide_eq_false_2 (is_Some None)).
      + apply andb_false_r.
      + by intros [? ?]. }
  rewrite (Copy_healthy e file (conj Ho Hh')).
  unfold added. by rewrite insert_insert_eq.
Qed.

(** *** Serving *)

Lemma Serve_invalid (e : Env) (q : Request) (name : string) (d : directory) :
  ContainsSlash name = true \/ name = ""%string ->
  Serve e q name d = Returns (inl ErrInvalidName) d.
Proof.
  intros H. unfold Serve.
  assert (ContainsSlash name || String.eqb name "" = true) as ->; [|done].
  destruct H as [->| ->]; [done|]. apply orb_true_r.
Qed.

Lemma Serve_valid_guard (name : string) :
  name <> ""%string -> ContainsSlash name = false ->
  ContainsSlash name || String.eqb name "" = false.
Proof.
  intros Hne ->. simpl. by destruct (String.eqb_spec name "").
Qed.

Lemma Serve_not_stored (e : Env) (q : Request) (name : string)
    (d : directory) :
  name <> ""%string -> ContainsSlash name = false ->
  files d !! name = None ->
  Serve e q name d = Returns (inl ErrNotStored) d.
Proof.
  intros Hne Hs Hf. unfold Serve.
  by rewrite (Serve_valid_guard name Hne Hs), Hf.
Qed.

(** For a plain name with a file on disk, [http.ServeFile] answers as
    [file_reply] says: with the file, unless the path of the request stops
    it first. *)
Lemma ServeFile_plain (q : Request) (name : string) (d : directory)
    (content : bytes) :
  plain_name name -> disk d !! name = Some content ->
  ServeFile q name d = file_reply q content.
Proof.
  intros Hp Hd. unfold ServeFile, file_reply.
  by rewrite (plain_name_Join name Hp), Hd.
Qed.

Lemma file_reply_sends_file (q : Request) (content : bytes) :
  sends_file q -> file_reply q content = Body content.
Proof. intros [Hd Hi]. unfold file_reply. by rewrite Hd, Hi. Qed.

(** The path ["/" ++ name] has no element [".."] when the name has neither
    a slash nor a backslash and is not [".."] itself; it does not end in
    ["/index.html"] when the name is not ["index.html"]. *)
Example sends_file_examples :
  sends_file (GET "/a") /\ sends_file (GET "/notes.txt") /\
  sends_file (GET "/index.htm") /\ sends_file (GET "/a..b") /\
  file_reply (GET "/index.html") [x68; x69] = Redirect /\
  file_reply (GET "/a\..") [x68; x69] = BadRequest /\
  file_reply (GET "/a") [x68; x69] = Body [x68; x69].
Proof. unfold sends_file. repeat split; reflexivity. Qed.

(** C1, as the code has it: after [Add] of a fresh plain name with
    [Downloads = 1], the [Add] succeeds, the first [Serve], for a request
    that [http.ServeFile] answers with the file, returns the uploaded
    content and its deferred [remove] deletes the entry, so every later
    [Serve] of the name (the second, the third, ...), whatever the request,
    fails with "File not stored". *)
Theorem single_download_then_not_stored
    (e0 e1 : Env) (q : Request) (file : Reader) (name : string)
    (pub del : bool) (d : directory) :
  plain_name name -> healthy e0 file -> sends_file q ->
  files d !! name = None -> disk d !! name = None ->
  exists d1 d2,
    Add e0 file name (mkConstraints 0 0 1 pub del) d = (None, d1) /\
    Serve e1 q name d1 = Returns (inr (Body (r_data file))) d2 /\
    files d2 !! name = None /\
    forall e q', Serve e q' name d2 = Returns (inl ErrNotStored) d2.
Proof.
  intros Hp Hh Hq Hf Hd.
  pose proof Hp as (Hne & Hs & _).
  eexists _, _. split; [apply Add_ok; auto|].
  unfold Serve at 1. rewrite (Serve_valid_guard name Hne Hs).
  unfold added at 1. cbn [files]. rewrite lookup_insert_eq.
  cbn -[ServeFile remove store added].
  erewrite ServeFile_plain; [|done|by cbn; rewrite lookup_insert_eq].
  rewrite (file_reply_sends_file q _ Hq).
  unfold remove, store. cbn [files]. rewrite lookup_insert_eq.
  cbn [can_Lock readers Downloads with_Downloads negb Nat.eqb Z.eqb andb].
  cbn -[added].
  split; [reflexivity|]. cbn [files].
  split; [apply lookup_delete_eq|].
  intros e q'. apply Serve_not_stored; auto. cbn [files].
  apply lookup_delete_eq.
Qed.

(** C1 fails as worded: on an empty store, the second [Serve] of a
    single-download file does not fail with "Download limit exceeded". *)
Lemma single_download_second_serve_not_limit :
  ~ single_download_as_stated (mkEnv 1000 false None false) (GET "/a")
      (mkReader [x68; x69] false) "a" (NewDirectory ∅).
Proof.
  intros (d1 & d2 & d3 & d4 & H1 & H2 & H3 & _).
  vm_compute in H1. injection H1 as <-.
  vm_compute in H2. injection H2 as <-.
  vm_compute in H3. discriminate H3.
Qed.

Lemma single_download_witness :
  exists d1 d2,
    Add (mkEnv 1000 false None false) (mkReader [x68; x69] false) "a"
        (mkConstraints 0 0 1 false false) (NewDirectory ∅) = (None, d1) /\
    Serve (mkEnv 2000 false None false) (GET "/a") "a" d1
    = Returns (inr (Body [x68; x69])) d2 /\
    files d2 !! "a" = None /\
    forall e q', Serve e q' "a" d2 = Returns (inl ErrNotStored) d2.
Proof.
  apply (single_download_then_not_stored
           (mkEnv 1000 false None false) (mkEnv 2000 false None false)
           (GET "/a")
           (mkReader [x68; x69] false) "a" false false (NewDirectory ∅)).
  - unfold plain_name. repeat split; discriminate.
  - unfold healthy. simpl. auto.
  - unfold sends_file. split; reflexivity.
  - reflexivity.
  - reflexivity.
Defined.

(** A record without expiration and with unlimited downloads is served
    from the file on disk, and the state stays as it is. *)
Lemma Serve_unlimited (e : Env) (q : Request) (name : string)
    (c : Constraints) (content : bytes) (d : directory) :
  plain_name name ->
  files d !! name = Some c -> Expire c = 0 -> Downloads c = 0 ->
  disk d !! name = Some content ->
  Serve e q name d = Returns (inr (file_reply q content)) d.
Proof.
  intros Hp Hf He Hn Hd. pose proof Hp as (Hne & Hs & _).
  unfold Serve, expired. rewrite (Serve_valid_guard name Hne Hs), Hf, He, Hn.
  simpl. by rewrite (ServeFile_plain q name d content Hp Hd).
Qed.

(** C4 fails for the name ["index.html"]: the upload succeeds, the record
    is unlimited and never expires, the bytes are on disk, and yet each
    [Serve] of the request for ["/index.html"], the path the server gives
    to that name, returns no error and answers with the redirect of
    [http.ServeFile], not with the content.  The state stays as [Add] left
    it. *)
Theorem index_html_is_not_served :
  exists d1,
    Add (mkEnv 1000 false None false) (mkReader [x68; x69] false)
        "index.html" (mkConstraints 0 0 0 true false) (NewDirectory ∅)
    = (None, d1) /\
    files d1 !! "index.html" = Some (mkConstraints 0 0 0 true false) /\
    disk d1 !! "index.html" = Some [x68; x69] /\
    forall e host form upload,
      Serve e (mkRequest "/index.html" host form upload) "index.html" d1
      = Returns (inr Redirect) d1.
Proof.
  eexists. split; [reflexivity|].
  split; [reflexivity|]. split; [reflexivity|].
  intros e host form upload. reflexivity.
Qed.

(** After [Add] of a fresh plain name with unlimited downloads and no
    expiration, any number of [Serve] calls, at any times, all answer with
    [http.ServeFile] of the uploaded file: its content, when the path of
    the request neither ends in ["/index.html"] nor has an element [".."].
    They leave the whole state (map, records, cache, disk, timers) as [Add]
    left it. *)
Theorem unlimited_round_trip
    (e0 : Env) (es : list Env) (q : Request) (file : Reader) (name : string)
    (c : Constraints) (d : directory) :
  plain_name name -> healthy e0 file -> sends_file q ->
  files d !! name = None -> disk d !! name = None ->
  Expire c = 0 -> Downloads c = 0 ->
  exists d1,
    Add e0 file name c d = (None, d1) /\
    Serve_all es q name d1
    = Returns (replicate (length es) (inr (Body (r_data file)))) d1.
Proof.
  intros Hp Hh Hq Hf Hd He Hn.
  exists (added e0 file name c d). split; [apply Add_ok; auto|].
  induction es as [|e es IH]; [done|].
  cbn [Serve_all].
  rewrite (Serve_unlimited e q name c (r_data file)); auto.
  - by rewrite IH, (file_reply_sends_file q _ Hq).
  - cbn. apply lookup_insert_eq.
  - cbn. apply lookup_insert_eq.
Qed.

Lemma unlimited_round_trip_witness :
  exists d1,
    Add (mkEnv 1000 false None false) (mkReader [x68; x69] false) "a"
        (mkConstraints 0 0 0 true false) (NewDirectory ∅) = (None, d1) /\
    Serve_all [mkEnv 1001 false None false; mkEnv 5000 true (Some O) true;
               mkEnv 0 false None false] (GET "/a") "a" d1
    = Returns (replicate 3 (inr (Body [x68; x69]))) d1.
Proof.
  apply (unlimited_round_trip
           (mkEnv 1000 false None false)
           [mkEnv 1001 false None false; mkEnv 5000 true (Some O) true;
            mkEnv 0 false None false] (GET "/a")
           (mkReader [x68; x69] false) "a"
           (mkConstraints 0 0 0 true false) (NewDirectory ∅)).
  - unfold plain_name. repeat split; discriminate.
  - unfold healthy. simpl. auto.
  - unfold sends_file. split; reflexivity.
  - reflexivity.
  - reflexivity.
  - reflexivity.
  - reflexivity.
Defined.

(** *** Adding *)

(** Whatever error [Add] returns, the map, the listing cache and the
    timers are as before. *)
Lemma Add_error_frame (e : Env) (file : Reader) (name : string)
    (c : Constraints) (d d' : directory) (err : error) :
  Add e file name c d = (Some err, d') ->
  files d' = files d /\ lst d' = lst d /\ timers d' = timers d.
Proof.
  unfold Add. destruct (negb _); [by intros [= _ <-]|].
  destruct (OpenFile _ _ _ _) as [?|[f fs]]; [by intros [= _ <-]|].
  destruct (Copy e file) as [written [cerr|]]; [by intros [= _ <-]|done].
Qed.

(** C5: [Add] of a tracked plain name, when no fault occurs, returns no
    error and replaces both the record and the content on disk; [Add] of
    an untracked name for which a file exists on disk returns an error
    and leaves the state as it is, and for a plain name that the
    operating system lets open the error is the one of the exclusive
    create. *)
Theorem Add_overwrite_or_exclusive
    (e : Env) (file : Reader) (name : string) (c : Constraints)
    (d : directory) :
  (plain_name name -> healthy e file -> is_Some (files d !! name) ->
   exists d', Add e file name c d = (None, d') /\
              files d' !! name = Some c /\
              disk d' !! name = Some (r_data file)) /\
  (files d !! name = None -> is_Some (disk d !! name) ->
   exists err, Add e file name c d = (Some err, d) /\
               (plain_name name -> open_fault e = false -> err = ErrExist)).
Proof.
  split.
  - intros Hp Hh Ht. exists (added e file name c d).
    split; [apply Add_ok; auto|]. cbn. by rewrite !lookup_insert_eq.
  - intros Hf Hd. unfold Add, OpenFile.
    destruct (String.eqb_spec (Base name) name) as [Hb|Hb]; simpl.
    2: { eexists. split; [done|]. intros Hp _.
         by destruct Hb; apply plain_name_Base. }
    rewrite Hf. rewrite (bool_decide_eq_false_2 (is_Some None)) by (by intros [? ?]).
    simpl. destruct (open_fault e) eqn:Ho.
    { eexists. split; [done|]. intros _ [=]. }
    unfold Join.
    destruct (String.eqb_spec name "/") as [->|H1]; simpl.
    { eexists. split; [done|]. by intros (_ & [=] & _). }
    destruct (String.eqb_spec name ".") as [->|H2]; simpl.
    { eexists. split; [done|]. by intros (_ & _ & ? & _). }
    destruct (String.eqb_spec name "..") as [->|H3]; simpl.
    { eexists. split; [done|]. by intros (_ & _ & _ & ?). }
    rewrite (bool_decide_eq_true_2 _ Hd). by eexists.
Qed.

Lemma Add_overwrite_or_exclusive_witness :
  (exists d',
     Add (mkEnv 1000 false None false) (mkReader [x68; x69] false) "a"
         (mkConstraints 0 0 3 true false)
         (mkDirectory {["a"%string := mkConstraints 0 0 0 false false]}
                      (mkList false []) {["a"%string := [x6f]]} [])
     = (None, d') /\
     files d' !! "a"%string = Some (mkConstraints 0 0 3 true false) /\
     disk d' !! "a"%string = Some [x68; x69]) /\
  (exists err,
     Add (mkEnv 1000 false None false) (mkReader [x68; x69] false) "a"
         (mkConstraints 0 0 3 true false)
         (NewDirectory {["a"%string := [x6f]]})
     = (Some err, NewDirectory {["a"%string := [x6f]]}) /\
     err = ErrExist).
Proof.
  assert (plain_name "a") as Hp by (unfold plain_name; repeat split; discriminate).
  split.
  - apply (Add_overwrite_or_exclusive
             (mkEnv 1000 false None false) (mkReader [x68; x69] false) "a"
             (mkConstraints 0 0 3 true false)
             (mkDirectory {["a"%string := mkConstraints 0 0 0 false false]}
                          (mkList false []) {["a"%string := [x6f]]} [])).
    + exact Hp.
    + unfold healthy. simpl. auto.
    + by eexists.
  - destruct (Add_overwrite_or_exclusive
                (mkEnv 1000 false None false) (mkReader [x68; x69] false) "a"
                (mkConstraints 0 0 3 true false)
                (NewDirectory {["a"%string := [x6f]]})) as [_ H].
    destruct H as (err & Ha & He); [reflexivity|by eexists|].
    exists err. split; [exact Ha|]. by apply He.
Defined.

(** C6: when the open of [Add] fails, [Add] returns that error and the
    whole state is as before; when the open succeeds and the copy fails,
    [Add] returns the error of the copy, and the map, the listing cache
    (its dirty flag with it) and the timers are as before. *)
Theorem Add_io_failure
    (e : Env) (file : Reader) (name : string) (c : Constraints)
    (d : directory) :
  Base name = name ->
  (forall err,
     OpenFile e name (negb (bool_decide (is_Some (files d !! name)))) (disk d)
     = inl err ->
     Add e file name c d = (Some err, d)) /\
  (forall f fs err,
     OpenFile e name (negb (bool_decide (is_Some (files d !! name)))) (disk d)
     = inr (f, fs) ->
     (Copy e file).2 = Some err ->
     exists d',
       Add e file name c d = (Some err, d') /\
       files d' = files d /\ lst d' = lst d /\ timers d' = timers d).
Proof.
  intros Hb. unfold Add. rewrite Hb, String.eqb_refl. simpl. split.
  - by intros err ->.
  - intros f fs err -> Hc. destruct (Copy e file) as [written cerr].
    simpl in Hc. subst cerr. by eexists.
Qed.

Lemma Add_io_failure_witness :
  Add (mkEnv 1000 true None false) (mkReader [x68; x69] false) "a"
      (mkConstraints 0 5000 0 true false) (NewDirectory ∅)
  = (Some ErrOpen, NewDirectory ∅) /\
  exists d',
    Add (mkEnv 1000 false None false) (mkReader [x68; x69] true) "a"
        (mkConstraints 0 5000 0 true false) (NewDirectory ∅)
    = (Some ErrRead, d') /\
    files d' = ∅ /\ lst d' = mkList false [] /\ timers d' = [].
Proof.
  split.
  - apply (Add_io_failure (mkEnv 1000 true None false) (mkReader [x68; x69] false)
             "a" (mkConstraints 0 5000 0 true false) (NewDirectory ∅));
      reflexivity.
  - apply (Add_io_failure (mkEnv 1000 false None false) (mkReader [x68; x69] true)
             "a" (mkConstraints 0 5000 0 true false) (NewDirectory ∅)
             eq_refl) with (f := "a"%string) (fs := {["a"%string := []]});
      reflexivity.
Defined.

(** C7: for the empty name and for every name that contains a slash,
    [Add] returns an error and the whole state (disk, map, cache, timers)
    is as before.  The error is the one of the name check, except for the
    name ["/"], which the name check lets through and the open refuses. *)
Theorem Add_invalid_name
    (e : Env) (file : Reader) (name : string) (c : Constraints)
    (d : directory) :
  ContainsSlash name = true \/ name = ""%string ->
  exists err,
    Add e file name c d = (Some err, d) /\
    (name <> "/"%string -> err = ErrInvalidFileName name).
Proof.
  intros H. unfold Add.
  destruct (String.eqb_spec (Base name) name) as [Hb|Hb]; simpl; [|by eexists].
  assert (name = "/"%string) as ->.
  { destruct H as [H| ->]; [by apply Base_fixed_slash|].
    by destruct Base_empty. }
  unfold OpenFile. destruct (open_fault e); simpl; by eexists.
Qed.

Lemma Add_invalid_name_witness :
  (exists err,
     Add (mkEnv 1000 false None false) (mkReader [x68; x69] false) "../etc/x"
         (mkConstraints 0 0 0 true true) (NewDirectory ∅)
     = (Some err, NewDirectory ∅) /\
     ("../etc/x"%string <> "/"%string -> err = ErrInvalidFileName "../etc/x")) /\
  (exists err,
     Add (mkEnv 1000 false None false) (mkReader [x68; x69] false) ""
         (mkConstraints 0 0 0 true true) (NewDirectory ∅)
     = (Some err, NewDirectory ∅) /\
     (""%string <> "/"%string -> err = ErrInvalidFileName "")).
Proof.
  split.
  - apply (Add_invalid_name (mkEnv 1000 false None false)
             (mkReader [x68; x69] false) "../etc/x"
             (mkConstraints 0 0 0 true true) (NewDirectory ∅)).
    left. reflexivity.
  - apply (Add_invalid_name (mkEnv 1000 false None false)
             (mkReader [x68; x69] false) ""
             (mkConstraints 0 0 0 true true) (NewDirectory ∅)).
    right. reflexivity.
Defined.

(** *** The error priority of [Serve] *)

(** C3, as the code has it: [Serve] first rejects the empty name and the
    names with a slash; for every other name it fails with "File not
    stored" when the name has no record; otherwise with "File recently
    expired" when the expiration has passed, also when it had passed
    already at [Add] time; otherwise, for a counter that is zero, or
    positive on a record whose lock no reader holds, it succeeds. *)
Theorem Serve_priority
    (e : Env) (q : Request) (name : string) (d : directory) :
  (ContainsSlash name = true \/ name = ""%string ->
   Serve e q name d = Returns (inl ErrInvalidName) d) /\
  (ContainsSlash name = false -> name <> ""%string ->
   files d !! name = None ->
   Serve e q name d = Returns (inl ErrNotStored) d) /\
  (forall c,
     ContainsSlash name = false -> name <> ""%string ->
     files d !! name = Some c -> expired e c = true ->
     exists d', Serve e q name d = Returns (inl ErrExpired) d') /\
  (forall c,
     ContainsSlash name = false -> name <> ""%string ->
     files d !! name = Some c -> expired e c = false ->
     Downloads c = 0 \/ (0 < Downloads c /\ readers c = O) ->
     exists r d', Serve e q name d = Returns (inr r) d').
Proof.
  split; [apply Serve_invalid|].
  split; [intros; by apply Serve_not_stored|].
  split.
  - intros c Hs Hne Hf He. unfold Serve.
    rewrite (Serve_valid_guard name Hne Hs), Hf, He. by eexists.
  - intros c Hs Hne Hf He Hn. unfold Serve.
    rewrite (Serve_valid_guard name Hne Hs), Hf, He.
    destruct Hn as [Hz|[Hpos Hr]].
    + rewrite Hz. simpl. by eexists _, _.
    + rewrite (proj2 (Z.ltb_lt _ _) Hpos). unfold can_Lock at 1. rewrite Hr. simpl.
      destruct (Downloads c =? 1) eqn:E1.
      * unfold remove, store. cbn [files]. rewrite lookup_insert_eq.
        unfold can_Lock. cbn [readers with_Downloads]. rewrite Hr. simpl.
        by eexists _, _.
      * destruct (Downloads c =? -1) eqn:E2; [|by eexists _, _].
        apply Z.eqb_eq in E2. lia.
Qed.

Lemma Serve_priority_witness :
  Serve (mkEnv 1000 false None false) (GET "/x/y") "x/y" (NewDirectory ∅)
  = Returns (inl ErrInvalidName) (NewDirectory ∅) /\
  Serve (mkEnv 1000 false None false) (GET "/a") "a" (NewDirectory ∅)
  = Returns (inl ErrNotStored) (NewDirectory ∅) /\
  (exists d',
     Serve (mkEnv 1000 false None false) (GET "/a") "a"
       (mkDirectory {["a"%string := mkConstraints 0 999 2 false false]}
                    (mkList false []) {["a"%string := [x68]]} [])
     = Returns (inl ErrExpired) d') /\
  (exists r d',
     Serve (mkEnv 1000 false None false) (GET "/a") "a"
       (mkDirectory {["a"%string := mkConstraints 0 1001 2 false false]}
                    (mkList false []) {["a"%string := [x68]]} [])
     = Returns (inr r) d').
Proof.
  split; [|split; [|split]].
  - apply (proj1 (Serve_priority (mkEnv 1000 false None false)
                    (GET "/x/y") "x/y"
                    (NewDirectory ∅))).
    left. reflexivity.
  - apply (proj1 (proj2 (Serve_priority (mkEnv 1000 false None false)
                           (GET "/a") "a" (NewDirectory ∅)))).
    + reflexivity.
    + discriminate.
    + reflexivity.
  - apply (proj1 (proj2 (proj2 (Serve_priority (mkEnv 1000 false None false)
             (GET "/a") "a"
             (mkDirectory {["a"%string := mkConstraints 0 999 2 false false]}
                          (mkList false []) {["a"%string := [x68]]} []))))
             (mkConstraints 0 999 2 false false)).
    + reflexivity.
    + discriminate.
    + reflexivity.
    + reflexivity.
  - apply (proj2 (proj2 (proj2 (Serve_priority (mkEnv 1000 false None false)
             (GET "/a") "a"
             (mkDirectory {["a"%string := mkConstraints 0 1001 2 false false]}
                          (mkList false []) {["a"%string := [x68]]} []))))
             (mkConstraints 0 1001 2 false false)).
    + reflexivity.
    + discriminate.
    + reflexivity.
    + reflexivity.
    + right. split; reflexivity.
Defined.

(** C3 fails as worded, twice: for the empty name on an empty store
    [Serve] reports an invalid name, not a missing file; and a record
    added with the counter at the sentinel [-1] is served. *)
Lemma Serve_priority_not_as_stated :
  ~ Serve_priority_as_stated (mkEnv 1000 false None false) (GET "/") ""
      (NewDirectory ∅) /\
  ~ Serve_priority_as_stated (mkEnv 1000 false None false) (GET "/a") "a"
      (Add (mkEnv 1000 false None false) (mkReader [x68] false) "a"
           (mkConstraints 0 0 (-1) false false) (NewDirectory ∅)).2.
Proof.
  split.
  - intros [d' H]. vm_compute in H. discriminate H.
  - unfold Serve_priority_as_stated.
    replace (files _ !! "a"%string)
      with (Some (mkConstraints 0 0 (-1) false false)) by (vm_compute; reflexivity).
    cbn [expired Expire Downloads Z.eqb negb andb].
    intros [d' H]. vm_compute in H. discriminate H.
Qed.

(** The slip behind the second half: [Serve] tests [Downloads > 0] before
    its switch, so the case [-1] of the switch is out of reach in a
    sequential run, and an exhausted record takes the unlimited path. *)
Lemma Serve_exhausted_is_served (e : Env) (q : Request) (name : string)
    (c : Constraints) (d : directory) :
  ContainsSlash name = false -> name <> ""%string ->
  files d !! name = Some c -> expired e c = false -> Downloads c = -1 ->
  Serve e q name d = Returns (inr (ServeFile q name d)) d.
Proof.
  intros Hs Hne Hf He Hn. unfold Serve.
  by rewrite (Serve_valid_guard name Hne Hs), Hf, He, Hn.
Qed.

(** [Serve] never returns "Download limit exceeded" in a sequential run. *)
Lemma Serve_never_limit (e : Env) (q : Request) (name : string)
    (d d' : directory) :
  Serve e q name d <> Returns (inl ErrLimit) d'.
Proof.
  unfold Serve. destruct (_ || _); [done|].
  destruct (files d !! name) as [c|]; [|done].
  destruct (expired e c); [done|].
  destruct (0 <? Downloads c) eqn:Hpos; [|done].
  destruct (negb (can_Lock c)); [done|].
  destruct (Downloads c =? 1); [by destruct (remove _ _ _)|].
  destruct (Downloads c =? -1) eqn:E; [|done].
  apply Z.eqb_eq in E. apply Z.ltb_lt in Hpos. lia.
Qed.

(** The expired branch of [Serve] returns with the read lock held, and a
    [remove] of that entry then waits for ever. *)
Lemma remove_blocks_after_expired_Serve (e e' : Env) (q : Request)
    (name : string) (c : Constraints) (d : directory) :
  ContainsSlash name = false -> name <> ""%string ->
  files d !! name = Some c -> expired e c = true ->
  Serve e q name d = Returns (inl ErrExpired) (store name (RLock c) d) /\
  remove e' name (store name (RLock c) d) = Blocked.
Proof.
  intros Hs Hne Hf He. split.
  - unfold Serve. by rewrite (Serve_valid_guard name Hne Hs), Hf, He.
  - unfold remove, store. cbn [files]. by rewrite lookup_insert_eq.
Qed.

(** *** Conditional removal *)

(** With a plain name, [os.Remove] unlinks the file unless the operating
    system refuses. *)
Lemma os_Remove_plain (e : Env) (name : string) (fs : gmap string bytes) :
  plain_name name ->
  os_Remove e name fs = if unlink_fault e then fs else delete name fs.
Proof.
  intros Hp. unfold os_Remove. by rewrite (plain_name_Join name Hp).
Qed.

(** C9 fails for an entry that [Serve] has found expired: on an empty
    store at clock 1000, [Add] stores a record that expires at 2000 and
    arms its timer; a [Serve] at clock 2001, before the timer has run,
    fails with "File recently expired" and returns with the read lock of
    the record held.  The state is one of a run of the store; its entry is
    tracked, with the expiration instant behind it and the [Delete] flag
    set, and yet [remove], called directly or by the timer at any clock
    value, never returns: the entry is never deleted and the file never
    unlinked. *)
Theorem expired_entry_is_never_removed :
  exists d1 d2,
    Add (mkEnv 1000 false None false) (mkReader [x68; x69] false) "a"
        (mkConstraints 0 2000 0 true true) (NewDirectory ∅) = (None, d1) /\
    timers d1 = [mkTimer "a" 1000] /\
    Serve (mkEnv 2001 false None false) (GET "/a") "a" d1
    = Returns (inl ErrExpired) d2 /\
    reachable ∅ d2 /\
    files d2 !! "a" = Some (mkConstraints 1 2000 0 true true) /\
    expired (mkEnv 2001 false None false) (mkConstraints 1 2000 0 true true)
    = true /\
    disk d2 !! "a" = Some [x68; x69] /\
    (forall e, remove e "a" d2 = Blocked) /\
    (forall e, fire e 0 d2 = Blocked).
Proof.
  eexists _, _.
  split; [reflexivity|]. split; [reflexivity|].
  split; [reflexivity|].
  split.
  { apply (reach_step ∅
             (Add (mkEnv 1000 false None false) (mkReader [x68; x69] false)
                  "a" (mkConstraints 0 2000 0 true true) (NewDirectory ∅)).2).
    - apply (reach_step ∅ (NewDirectory ∅)); [apply reach_init|].
      apply step_Add.
    - apply (step_Serve (mkEnv 2001 false None false) (GET "/a") "a" _ _
               (inl ErrExpired)).
      reflexivity. }
  split; [reflexivity|]. split; [reflexivity|]. split; [reflexivity|].
  split; intros e; reflexivity.
Qed.

(** For a tracked entry with a plain name whose lock no reader holds,
    [remove] returns; it deletes the entry exactly when the counter is the
    sentinel [-1] or the expiration has passed, and leaves the whole state
    as it is otherwise; when it deletes, the file is unlinked exactly when
    the [Delete] flag is set and the operating system does not refuse, and
    the map entry is deleted whatever [os.Remove] does; the dirty flag is
    set when the record was public, and the files and records of other
    names stay. *)
Theorem remove_conditional
    (e : Env) (name : string) (c : Constraints) (d : directory) :
  plain_name name -> files d !! name = Some c -> readers c = O ->
  exists d',
    remove e name d = Returns tt d' /\
    if (Downloads c =? -1) || expired e c
    then files d' = delete name (files d) /\
         files d' !! name = None /\
         disk d' = (if Delete c && negb (unlink_fault e)
                    then delete name (disk d) else disk d) /\
         dirty (lst d') = dirty (lst d) || Public c /\
         slice (lst d') = slice (lst d) /\
         timers d' = timers d
    else d' = d.
Proof.
  intros Hp Hf Hr. unfold remove, can_Lock. rewrite Hf, Hr. simpl.
  rewrite (os_Remove_plain e name (disk d) Hp).
  destruct (Downloads c =? -1); simpl.
  - eexists. split; [done|]. cbn. split; [done|].
    split; [apply lookup_delete_eq|].
    split; [by destruct (Delete c), (unlink_fault e)|].
    unfold set_dirty. destruct (Public c); cbn; rewrite ?orb_true_r, ?orb_false_r; done.
  - destruct (expired e c); simpl.
    + eexists. split; [done|]. cbn. split; [done|].
      split; [apply lookup_delete_eq|].
      split; [by destruct (Delete c), (unlink_fault e)|].
      unfold set_dirty. destruct (Public c); cbn; rewrite ?orb_true_r, ?orb_false_r; done.
    + by eexists.
Qed.

(** An exhausted record with the [Delete] flag: the entry and the file are
    gone, the file of another name stays. *)
Lemma remove_conditional_witness :
  exists d',
    remove (mkEnv 1000 false None false) "a"
      (mkDirectory {["a"%string := mkConstraints 0 0 (-1) true true]}
                   (mkList false ["a"%string])
                   (<["b"%string := [x69]]> {["a"%string := [x68]]}) [])
    = Returns tt d' /\
    files d' !! "a"%string = None /\ disk d' !! "a"%string = None /\
    disk d' !! "b"%string = Some [x69] /\ dirty (lst d') = true.
Proof.
  destruct (remove_conditional (mkEnv 1000 false None false) "a"
              (mkConstraints 0 0 (-1) true true)
              (mkDirectory {["a"%string := mkConstraints 0 0 (-1) true true]}
                           (mkList false ["a"%string])
                           (<["b"%string := [x69]]> {["a"%string := [x68]]}) []))
    as (d' & Hd & _ & Hn & Hk & Hy & _);
    [unfold plain_name; repeat split; discriminate|reflexivity|reflexivity|].
  exists d'. split; [exact Hd|]. split; [exact Hn|].
  rewrite Hk, Hy. repeat split; reflexivity.
Defined.

(** [remove] of a name without an entry changes nothing. *)
Lemma remove_untracked (e : Env) (name : string) (d : directory) :
  files d !! name = None -> remove e name d = Returns tt d.
Proof. intros Hf. unfold remove. by rewrite Hf. Qed.

(** *** The files on disk *)

(** C10: [Remove] leaves the disk as it is, whatever the [Delete] flag of
    the record says; so does [List]; [Add] keeps every file that was on
    disk; and when [Serve] changes the disk, it is through the [remove] it
    defers after the last permitted download of a record with the
    [Delete] flag. *)
Theorem only_remove_unlinks (e : Env) (q : Request) (name : string)
    (d : directory) :
  disk (Remove name d) = disk d /\
  disk (List d).2 = disk d /\
  (forall file c f,
     is_Some (disk d !! f) -> is_Some (disk (Add e file name c d).2 !! f)) /\
  (forall r d',
     Serve e q name d = Returns r d' ->
     disk d' = disk d \/
     exists c, files d !! name = Some c /\ Downloads c = 1 /\
               Delete c = true /\ disk d' = os_Remove e name (disk d)).
Proof.
  split; [done|]. split; [by unfold List; destruct (dirty (lst d))|]. split.
  - intros file c f Hf. unfold Add. destruct (negb _); [done|].
    unfold OpenFile. destruct (open_fault e); [done|].
    destruct (Join name) as [n| |]; [|by destruct (negb _)..].
    destruct (_ && _); [done|].
    assert (is_Some (<[n:=(Copy e file).1]> (<[n:=[]]> (disk d)) !! f)) as H.
    { destruct (decide (n = f)) as [->|Hne].
      - rewrite lookup_insert_eq. by eexists.
      - by rewrite !lookup_insert_ne. }
    destruct (Copy e file) as [written [err|]]; exact H.
  - intros r d'. unfold Serve. destruct (_ || _); [intros [= _ <-]; by left|].
    destruct (files d !! name) as [c|] eqn:Hf; [|intros [= _ <-]; by left].
    destruct (expired e c); [intros [= _ <-]; by left|].
    destruct (0 <? Downloads c); [|intros [= _ <-]; by left].
    destruct (negb (can_Lock c)) eqn:Hl; [done|].
    destruct (Downloads c =? 1) eqn:E1.
    + unfold remove, store. cbn [files]. rewrite lookup_insert_eq.
      unfold can_Lock in *. cbn [with_Downloads readers]. rewrite Hl.
      cbn. intros [= _ <-]. cbn.
      destruct (Delete c) eqn:Hd; [right|by left].
      exists c. apply Z.eqb_eq in E1. done.
    + destruct (Downloads c =? -1); intros [= _ <-]; by left.
Qed.

Lemma only_remove_unlinks_witness :
  disk (Remove "a"
          (mkDirectory {["a"%string := mkConstraints 0 0 0 true true]}
                       (mkList false []) {["a"%string := [x68]]} []))
  = {["a"%string := [x68]]} /\
  is_Some (disk (Add (mkEnv 1000 false None false) (mkReader [x69] false) "b"
                     (mkConstraints 0 0 0 true true)
                     (NewDirectory {["a"%string := [x68]]})).2 !! "a"%string).
Proof.
  split.
  - exact (proj1 (only_remove_unlinks (mkEnv 1000 false None false)
             (GET "/a") "a"
             (mkDirectory {["a"%string := mkConstraints 0 0 0 true true]}
                          (mkList false []) {["a"%string := [x68]]} []))).
  - apply (proj1 (proj2 (proj2 (only_remove_unlinks
             (mkEnv 1000 false None false) (GET "/b") "b"
             (NewDirectory {["a"%string := [x68]]}))))).
    by eexists.
Defined.

(** *** The listing *)

Section Listing.

#[local] Instance str_le_total : Total str_le.
Proof. intros s1 s2. apply String.leb_total. Qed.

#[local] Instance str_le_antisym : AntiSymm (=) str_le.
Proof. intros s1 s2. apply String.leb_antisym. Qed.

Lemma Ascii_compare_refl (a : ascii) : Ascii.compare a a = Eq.
Proof. unfold Ascii.compare. apply N.compare_refl. Qed.

Lemma Ascii_compare_Lt_trans (a b c : ascii) :
  Ascii.compare a b = Lt -> Ascii.compare b c = Lt -> Ascii.compare a c = Lt.
Proof.
  unfold Ascii.compare. rewrite !N.compare_lt_iff. apply N.lt_trans.
Qed.

#[local] Instance str_le_trans : Transitive str_le.
Proof.
  unfold str_le, String.leb. intros s1.
  induction s1 as [|a s1 IH]; intros [|b s2] [|c s3]; simpl; try done.
  destruct (Ascii.compare a b) eqn:Hab; [| |done].
  - apply Ascii.compare_eq_iff in Hab as ->.
    destruct (Ascii.compare b c) eqn:Hbc; [|done..]. apply IH.
  - intros _. destruct (Ascii.compare b c) eqn:Hbc; [| |done].
    + apply Ascii.compare_eq_iff in Hbc as <-. by rewrite Hab.
    + intros _. by rewrite (Ascii_compare_Lt_trans a b c).
Qed.

Lemma public_names_sorted (m : gmap string Constraints) :
  StronglySorted str_le (public_names m).
Proof. apply (StronglySorted_merge_sort str_le). Qed.

(** The rebuild collects exactly the names whose record is public. *)
Lemma public_names_elem (m : gmap string Constraints) (n : string) :
  n ∈ public_names m <-> exists c, m !! n = Some c /\ Public c = true.
Proof.
  unfold public_names. rewrite (merge_sort_Permutation str_le).
  rewrite list_elem_of_fmap. split.
  - intros ([n' c] & -> & [Hp Hin]%list_elem_of_filter).
    apply elem_of_map_to_list in Hin. by exists c.
  - intros (c & Hm & Hp). exists (n, c). split; [done|].
    apply list_elem_of_filter. split; [done|]. by apply elem_of_map_to_list.
Qed.

Lemma public_names_NoDup (m : gmap string Constraints) :
  NoDup (public_names m).
Proof.
  unfold public_names. rewrite (merge_sort_Permutation str_le).
  eapply sublist_NoDup; [apply (NoDup_fst_map_to_list m)|].
  apply fmap_sublist, sublist_filter.
Qed.

(** The rebuilt list depends on the public names only. *)
Lemma public_names_ext (m1 m2 : gmap string Constraints) :
  (forall n, (exists c, m1 !! n = Some c /\ Public c = true) <->
             (exists c, m2 !! n = Some c /\ Public c = true)) ->
  public_names m1 = public_names m2.
Proof.
  intros H. apply (StronglySorted_unique str_le);
    [apply public_names_sorted..|].
  apply NoDup_Permutation; [apply public_names_NoDup..|].
  intros n. by rewrite !public_names_elem.
Qed.

(** [List] returns the sorted public names when the cache agrees with the
    store, and leaves a clean cache that agrees with it. *)
Lemma List_correct (d : directory) :
  cache_ok d ->
  (List d).1 = public_names (files d) /\
  dirty (lst (List d).2) = false /\
  cache_ok (List d).2 /\
  files (List d).2 = files d.
Proof.
  intros Hc. unfold List. destruct (dirty (lst d)) eqn:Hd; cbn.
  - repeat split; done.
  - repeat split; try done. by apply Hc.
Qed.

(** Writing a record under [n] keeps the rebuilt list when it keeps the
    public status of [n]. *)
Lemma public_names_insert (m : gmap string Constraints) (n : string)
    (c : Constraints) :
  Public c = match m !! n with Some c0 => Public c0 | None => false end ->
  public_names (<[n := c]> m) = public_names m.
Proof.
  intros Hp. apply public_names_ext. intros n'.
  destruct (decide (n = n')) as [<-|Hne].
  - rewrite lookup_insert_eq. split.
    + intros (c' & [= <-] & Hc). rewrite Hc in Hp.
      destruct (m !! n) as [c0|]; [by exists c0|done].
    + intros (c0 & Hm & Hc). rewrite Hm, Hc in Hp. by exists c.
  - by rewrite lookup_insert_ne.
Qed.

(** Deleting a record that is not public keeps the rebuilt list. *)
Lemma public_names_delete (m : gmap string Constraints) (n : string) :
  (forall c, m !! n = Some c -> Public c = false) ->
  public_names (delete n m) = public_names m.
Proof.
  intros Hp. apply public_names_ext. intros n'.
  destruct (decide (n = n')) as [<-|Hne].
  - rewrite lookup_delete_eq. split; [by intros (? & [=] & _)|].
    intros (c & Hm & Hc). by rewrite (Hp c Hm) in Hc.
  - by rewrite lookup_delete_ne.
Qed.

Lemma Remove_cache_ok (name : string) (d : directory) :
  cache_ok d -> cache_ok (Remove name d).
Proof.
  unfold cache_ok, Remove. cbn. intros Hc.
  destruct (files d !! name) as [c|] eqn:Hf.
  - destruct (Public c) eqn:Hp; cbn; [done|]. intros Hd.
    rewrite public_names_delete; [by apply Hc|].
    intros c' Hc'. congruence.
  - intros Hd. rewrite delete_id; auto.
Qed.

Lemma remove_cache_ok (e : Env) (name : string) (d d' : directory) :
  cache_ok d -> remove e name d = Returns tt d' -> cache_ok d'.
Proof.
  unfold remove. intros Hc.
  destruct (files d !! name) as [c|] eqn:Hf; [|by intros [= <-]].
  destruct (negb (can_Lock c)); [done|].
  destruct (_ && _); [by intros [= <-]|]. intros [= <-].
  unfold cache_ok in *. cbn.
  destruct (Public c) eqn:Hp; cbn; [done|]. intros Hd.
  rewrite public_names_delete; [by apply Hc|].
  intros c' Hc'. congruence.
Qed.

(** A write through the pointer that keeps [Public] keeps the agreement. *)
Lemma store_cache_ok (name : string) (c c' : Constraints) (d : directory) :
  files d !! name = Some c -> Public c' = Public c ->
  cache_ok d -> cache_ok (store name c' d).
Proof.
  unfold cache_ok, store. cbn. intros Hf Hp Hc Hd.
  rewrite public_names_insert; [by apply Hc|]. by rewrite Hf.
Qed.

Lemma Serve_cache_ok (e : Env) (q : Request) (name : string) (d d' : directory)
    (r : error + response) :
  cache_ok d -> Serve e q name d = Returns r d' -> cache_ok d'.
Proof.
  unfold Serve. intros Hc. destruct (_ || _); [by intros [= _ <-]|].
  destruct (files d !! name) as [c|] eqn:Hf; [|by intros [= _ <-]].
  destruct (expired e c).
  { intros [= _ <-]. by apply (store_cache_ok name c). }
  destruct (0 <? Downloads c); [|by intros [= _ <-]].
  destruct (negb (can_Lock c)); [done|].
  destruct (Downloads c =? 1).
  - destruct (remove _ _ _) as [[] d2|] eqn:Hr; [|done]. intros [= _ <-].
    eapply remove_cache_ok; [|exact Hr]. by apply (store_cache_ok name c).
  - destruct (Downloads c =? -1); intros [= _ <-]; [done|].
    by apply (store_cache_ok name c).
Qed.

(** [Add] keeps the agreement when the new record is public, or when the
    name had no public record. *)
Lemma Add_cache_ok (e : Env) (file : Reader) (name : string)
    (c : Constraints) (d : directory) :
  cache_ok d ->
  Public c = true \/ (forall c0, files d !! name = Some c0 -> Public c0 = false) ->
  cache_ok (Add e file name c d).2.
Proof.
  intros Hc Hp. unfold Add. destruct (negb _); [done|].
  destruct (OpenFile _ _ _ _) as [?|[f fs]]; [done|].
  destruct (Copy e file) as [written [err|]]; [done|].
  unfold cache_ok in *. cbn.
  destruct (Public c) eqn:Hpc; cbn; [done|]. intros Hd.
  destruct Hp as [?|Hp]; [done|].
  rewrite public_names_insert; [by apply Hc|].
  rewrite Hpc. destruct (files d !! name) as [c0|] eqn:Hf; [|done].
  symmetry. by apply Hp.
Qed.

(** The case [Add] misses: a public record overwritten by one that is not
    public.  The dirty flag stays false and the cached slice still lists
    the name, though it is not a public name any more. *)
Lemma Add_overwrite_public_stale (e : Env) (file : Reader) (name : string)
    (c c0 : Constraints) (d : directory) :
  plain_name name -> healthy e file ->
  files d !! name = Some c0 -> Public c0 = true -> Public c = false ->
  dirty (lst d) = false -> cache_ok d ->
  dirty (lst (Add e file name c d).2) = false /\
  name ∈ slice (lst (Add e file name c d).2) /\
  name ∉ public_names (files (Add e file name c d).2).
Proof.
  intros Hp Hh Hf Hc0 Hpc Hd Hc.
  rewrite Add_ok by (auto; left; by eexists). cbn. rewrite Hpc. cbn.
  split; [done|]. split.
  - rewrite (Hc Hd). apply public_names_elem. by exists c0.
  - rewrite public_names_elem, lookup_insert_eq.
    intros (c' & [= <-] & Hc'). congruence.
Qed.

End Listing.

(** *** Administrative removal *)

(** C8: [Remove] deletes the map entry whatever the record says; it sets
    the dirty flag exactly when the entry existed and was public, and
    leaves the cached slice alone; on a name without an entry it changes
    nothing; a second [Remove] of the same name changes nothing; and a
    cache that agrees with the store still agrees with it afterwards. *)
Theorem Remove_unconditional (name : string) (d : directory) :
  files (Remove name d) = delete name (files d) /\
  dirty (lst (Remove name d))
  = dirty (lst d) || match files d !! name with
                     | Some c => Public c
                     | None => false
                     end /\
  slice (lst (Remove name d)) = slice (lst d) /\
  (files d !! name = None -> Remove name d = d) /\
  Remove name (Remove name d) = Remove name d /\
  (cache_ok d -> cache_ok (Remove name d)).
Proof.
  split; [done|]. split.
  { unfold Remove. cbn. destruct (lst d) as [dy sl].
    destruct (files d !! name) as [[? ? ? [] ?]|]; cbn;
      by rewrite ?orb_true_r, ?orb_false_r. }
  split.
  { unfold Remove. cbn. destruct (lst d) as [dy sl].
    by destruct (files d !! name) as [[? ? ? [] ?]|]. }
  split.
  { intros Hf. destruct d as [fs l dk tm]. unfold Remove. cbn in *.
    by rewrite Hf, delete_id. }
  split.
  { unfold Remove. cbn. by rewrite lookup_delete_eq, delete_delete_eq. }
  apply Remove_cache_ok.
Qed.

Lemma Remove_unconditional_witness :
  Remove "a" (NewDirectory ∅) = NewDirectory ∅ /\
  cache_ok (Remove "a" (NewDirectory ∅)).
Proof.
  split.
  - apply (proj1 (proj2 (proj2 (proj2
             (Remove_unconditional "a" (NewDirectory ∅)))))).
    reflexivity.
  - apply (proj2 (proj2 (proj2 (proj2 (proj2
             (Remove_unconditional "a" (NewDirectory ∅))))))).
    intros _. reflexivity.
Defined.

(** *** Expiration *)

(** An [Add] with an expiration that has passed already is followed by
    a [Serve] that fails with "File recently expired", when the timer has
    not fired in between. *)
Lemma Serve_after_expired_Add (e0 e1 : Env) (q : Request) (file : Reader) (name : string)
    (c : Constraints) (d : directory) :
  plain_name name -> healthy e0 file ->
  files d !! name = None -> disk d !! name = None ->
  Expire c <> 0 -> Expire c < now e1 ->
  exists d1 d2,
    Add e0 file name c d = (None, d1) /\
    Serve e1 q name d1 = Returns (inl ErrExpired) d2.
Proof.
  intros Hp Hh Hf Hd Hz Hlt. pose proof Hp as (Hne & Hs & _).
  eexists _, _. split; [apply Add_ok; auto|].
  unfold Serve. rewrite (Serve_valid_guard name Hne Hs).
  unfold added at 1. cbn [files]. rewrite lookup_insert_eq.
  unfold expired.
  rewrite (proj2 (Z.eqb_neq _ _) Hz), (proj2 (Z.ltb_lt _ _) Hlt). done.
Qed.

(** The timer of an expired file fires after a [Serve] has met the
    expiration: [remove] waits for the read lock that [Serve] kept.  When
    the timer fires first, the entry is removed and [Serve] reports a
    missing file. *)
Example timer_after_expired_Serve :
  let e0 := mkEnv 1000 false None false in
  let e1 := mkEnv 1001 false None false in
  let d1 := (Add e0 (mkReader [x68] false) "a"
               (mkConstraints 0 900 0 false true) (NewDirectory ∅)).2 in
  timers d1 = [mkTimer "a" (-100)] /\
  (exists d2, Serve e1 (GET "/a") "a" d1 = Returns (inl ErrExpired) d2 /\
              fire e1 0 d2 = Blocked) /\
  (exists d2, fire e1 0 d1 = Returns tt d2 /\
              Serve e1 (GET "/a") "a" d2 = Returns (inl ErrNotStored) d2).
Proof.
  cbv zeta. split; [vm_compute; reflexivity|]. split.
  - eexists. split; vm_compute; reflexivity.
  - eexists. split; vm_compute; reflexivity.
Qed.

(** *** The stale listing *)

(** C2 does not hold of the code: [Add] sets the dirty flag only when the
    new record is public.  On an empty store, add ["a"] as public, list,
    and add ["a"] again as not public: the dirty flag is false, the cached
    slice is [["a"]], no name is public, and [List] still returns
    [["a"]]. *)
Theorem stale_listing_after_overwrite :
  let e := mkEnv 1000 false None false in
  let d1 := (Add e (mkReader [x68] false) "a"
               (mkConstraints 0 0 0 true false) (NewDirectory ∅)).2 in
  let d2 := (List d1).2 in
  let d3 := (Add e (mkReader [x69] false) "a"
               (mkConstraints 0 0 0 false false) d2).2 in
  (List d1).1 = ["a"%string] /\
  cache_ok d2 /\
  dirty (lst d3) = false /\
  slice (lst d3) = ["a"%string] /\
  public_names (files d3) = [] /\
  (List d3).1 = ["a"%string] /\
  ~ cache_ok d3.
Proof.
  cbv zeta.
  split; [vm_compute; reflexivity|].
  split; [intros _; vm_compute; reflexivity|].
  split; [vm_compute; reflexivity|].
  split; [vm_compute; reflexivity|].
  split; [vm_compute; reflexivity|].
  split; [vm_compute; reflexivity|].
  intros H. specialize (H eq_refl). vm_compute in H. discriminate H.
Qed.

End StorageFacts.

(** ** Further facts about the store *)

Module StorageMore.

Import GoPath GoPathFacts Storage StorageFacts.
Local Open Scope Z_scope.

(** *** The name guards *)

(** The names the guard of [Add] lets through are ["/"] and the non-empty
    names without a slash. *)
Lemma Base_fixed_iff (name : string) :
  Base name = name <->
  name = "/"%string \/ (name <> ""%string /\ ContainsSlash name = false).
Proof.
  split.
  - intros Hb. destruct (ContainsSlash name) eqn:Hs.
    + left. by apply Base_fixed_slash.
    + right. split; [|done]. intros ->. by destruct Base_empty.
  - intros [->|[Hne Hs]]; [done|]. by apply Base_plain.
Qed.

(** A name that [Add] stores is a plain name, so the guard of [Serve]
    accepts every name that [Add] has stored. *)
Theorem Add_success_plain (e : Env) (file : Reader) (name : string)
    (c : Constraints) (d d' : directory) :
  Add e file name c d = (None, d') ->
  plain_name name /\ ContainsSlash name || String.eqb name "" = false.
Proof.
  unfold Add. destruct (String.eqb_spec (Base name) name) as [Hb|Hb]; [|done].
  simpl. unfold OpenFile. destruct (open_fault e); [done|].
  unfold Join.
  destruct (String.eqb_spec name "/") as [->|H1]; simpl; [done|].
  destruct (String.eqb_spec name ".") as [->|H2]; simpl; [done|].
  destruct (String.eqb_spec name "..") as [->|H3]; simpl; [done|].
  intros _. apply Base_fixed_iff in Hb as [?|[Hne Hs]]; [done|].
  split; [done|]. by apply Serve_valid_guard.
Qed.

Lemma Add_success_plain_witness :
  plain_name "a" /\ ContainsSlash "a" || String.eqb "a" "" = false.
Proof.
  apply (Add_success_plain (mkEnv 1000 false None false)
           (mkReader [x68] false) "a" (mkConstraints 0 0 0 true false)
           (NewDirectory ∅)
           (added (mkEnv 1000 false None false) (mkReader [x68] false) "a"
                  (mkConstraints 0 0 0 true false) (NewDirectory ∅))).
  vm_compute. reflexivity.
Defined.

(** *** What every run keeps *)

Lemma OpenFile_inr (e : Env) (name f : string) (excl : bool)
    (fs fs' : gmap string bytes) :
  Base name = name -> OpenFile e name excl fs = inr (f, fs') ->
  f = name /\ fs' = <[name := []]> fs /\ plain_name name.
Proof.
  intros Hb. unfold OpenFile. destruct (open_fault e); [done|].
  unfold Join.
  destruct (String.eqb_spec name "/") as [->|H1]; simpl; [by destruct excl|].
  destruct (String.eqb_spec name ".") as [->|H2]; simpl; [by destruct excl|].
  destruct (String.eqb_spec name "..") as [->|H3]; simpl; [by destruct excl|].
  destruct (_ && _); [done|]. intros [= <- <-].
  apply Base_fixed_iff in Hb as [?|[Hne Hs]]; done.
Qed.

Lemma insert_keeps_is_Some (fs : gmap string bytes) (k n : string) (v : bytes) :
  is_Some (fs !! n) -> is_Some (<[k := v]> fs !! n).
Proof.
  intros H. destruct (decide (k = n)) as [->|Hne].
  - rewrite lookup_insert_eq. by eexists.
  - by rewrite lookup_insert_ne.
Qed.

Lemma Add_tracked_ok (e : Env) (file : Reader) (name : string)
    (c : Constraints) (d : directory) :
  tracked_ok d -> tracked_ok (Add e file name c d).2.
Proof.
  intros Hd. unfold Add.
  destruct (String.eqb_spec (Base name) name) as [Hb|Hb]; [|done]. simpl.
  destruct (OpenFile _ _ _ _) as [?|[f fs]] eqn:Ho; [done|].
  apply (OpenFile_inr _ _ _ _ _ _ Hb) in Ho as (-> & -> & Hp).
  destruct (Copy e file) as [written [err|]]; intros n c' Hn; cbn in *.
  - destruct (Hd n c' Hn) as [Hpn Hdn]. split; [done|].
    by do 2 apply insert_keeps_is_Some.
  - destruct (decide (name = n)) as [<-|Hne].
    + split; [done|]. rewrite lookup_insert_eq. by eexists.
    + rewrite lookup_insert_ne in Hn by done.
      destruct (Hd n c' Hn) as [Hpn Hdn]. split; [done|].
      by do 2 apply insert_keeps_is_Some.
Qed.

Lemma remove_tracked_ok (e : Env) (name : string) (d d' : directory) :
  tracked_ok d -> remove e name d = Returns tt d' -> tracked_ok d'.
Proof.
  intros Hd. unfold remove.
  destruct (files d !! name) as [c|] eqn:Hf; [|by intros [= <-]].
  destruct (negb (can_Lock c)); [done|].
  destruct (_ && _); [by intros [= <-]|]. intros [= <-].
  intros n c' Hn. cbn in *.
  destruct (decide (name = n)) as [<-|Hne];
    [by rewrite lookup_delete_eq in Hn|].
  rewrite lookup_delete_ne in Hn by done.
  destruct (Hd n c' Hn) as [Hpn Hdn]. split; [done|].
  destruct (Delete c); [|done].
  rewrite os_Remove_plain by (by apply (Hd name c)).
  destruct (unlink_fault e); [done|]. by rewrite lookup_delete_ne.
Qed.

Lemma store_tracked_ok (name : string) (c c' : Constraints) (d : directory) :
  files d !! name = Some c -> tracked_ok d -> tracked_ok (store name c' d).
Proof.
  intros Hf Hd n c'' Hn. cbn in *.
  destruct (decide (name = n)) as [<-|Hne]; [by apply (Hd name c)|].
  rewrite lookup_insert_ne in Hn by done. by apply (Hd n c'').
Qed.

Lemma Serve_tracked_ok (e : Env) (q : Request) (name : string) (d d' : directory)
    (r : error + response) :
  tracked_ok d -> Serve e q name d = Returns r d' -> tracked_ok d'.
Proof.
  unfold Serve. intros Hd. destruct (_ || _); [by intros [= _ <-]|].
  destruct (files d !! name) as [c|] eqn:Hf; [|by intros [= _ <-]].
  destruct (expired e c).
  { intros [= _ <-]. by apply (store_tracked_ok name c). }
  destruct (0 <? Downloads c); [|by intros [= _ <-]].
  destruct (negb (can_Lock c)); [done|].
  destruct (Downloads c =? 1).
  - destruct (remove _ _ _) as [[] d2|] eqn:Hr; [|done]. intros [= _ <-].
    eapply remove_tracked_ok; [|exact Hr]. by apply (store_tracked_ok name c).
  - destruct (Downloads c =? -1); intros [= _ <-]; [done|].
    by apply (store_tracked_ok name c).
Qed.

Lemma fire_tracked_ok (e : Env) (i : nat) (d d' : directory) :
  tracked_ok d -> fire e i d = Returns tt d' -> tracked_ok d'.
Proof.
  unfold fire. intros Hd. destruct (timers d !! i) as [t|]; [|by intros [= <-]].
  apply remove_tracked_ok. exact Hd.
Qed.

(** Only the rebuild of [List] writes the cached slice. *)
Lemma remove_slice (e : Env) (name : string) (d d' : directory) :
  remove e name d = Returns tt d' -> slice (lst d') = slice (lst d).
Proof.
  unfold remove. destruct (files d !! name) as [c|]; [|by intros [= <-]].
  destruct (negb (can_Lock c)); [done|].
  destruct (_ && _); intros [= <-]; [done|]. cbn. by destruct (Public c).
Qed.

Lemma step_slice (d d' : directory) :
  step d d' ->
  slice (lst d') = slice (lst d) \/
  (dirty (lst d) = true /\ slice (lst d') = public_names (files d)).
Proof.
  intros [e file name c d0|name d0|d0|e q name d0 d1 r Hs|e i d0 d1 Hf].
  - left. unfold Add. destruct (negb _); [done|].
    destruct (OpenFile _ _ _ _) as [?|[f fs]]; [done|].
    destruct (Copy e file) as [written [err|]]; [done|]. cbn.
    by destruct (Public c).
  - left. unfold Remove. cbn.
    by destruct (files d0 !! name) as [[? ? ? [] ?]|].
  - unfold List. destruct (dirty (lst d0)) eqn:Hd; [by right|by left].
  - left. revert Hs. unfold Serve. destruct (_ || _); [by intros [= _ <-]|].
    destruct (files d0 !! name) as [c|]; [|by intros [= _ <-]].
    destruct (expired e c); [by intros [= _ <-]|].
    destruct (0 <? Downloads c); [|by intros [= _ <-]].
    destruct (negb (can_Lock c)); [done|].
    destruct (Downloads c =? 1).
    + destruct (remove _ _ _) as [[] d2|] eqn:Hr; [|done]. intros [= _ <-].
      by rewrite (remove_slice _ _ _ _ Hr).
    + by destruct (Downloads c =? -1); intros [= _ <-].
  - left. revert Hf. unfold fire.
    destruct (timers d0 !! i) as [t|]; [|by intros [= <-]].
    intros Hr. by rewrite (remove_slice _ _ _ _ Hr).
Qed.

Lemma step_tracked_ok (d d' : directory) :
  step d d' -> tracked_ok d -> tracked_ok d'.
Proof.
  intros [e file name c d0|name d0|d0|e q name d0 d1 r Hs|e i d0 d1 Hf] Hd.
  - by apply Add_tracked_ok.
  - intros n c Hn. cbn in *.
    destruct (decide (name = n)) as [<-|Hne];
      [by rewrite lookup_delete_eq in Hn|].
    rewrite lookup_delete_ne in Hn by done. by apply (Hd n c).
  - unfold List. by destruct (dirty (lst d0)).
  - by eapply Serve_tracked_ok.
  - by eapply fire_tracked_ok.
Qed.

Lemma reachable_inv (fs : gmap string bytes) (d : directory) :
  reachable fs d -> tracked_ok d /\ slice_ok d.
Proof.
  induction 1 as [|d d' Hr [Ht (Hs & Hn & Hp)] Hst].
  - split; [by intros n c|]. unfold slice_ok. cbn.
    split; [constructor|]. split; [constructor|].
    by intros n ?%elem_of_nil.
  - split; [by eapply step_tracked_ok|].
    unfold slice_ok.
    destruct (step_slice d d' Hst) as [->|[_ ->]]; [done|].
    split; [apply public_names_sorted|]. split; [apply public_names_NoDup|].
    intros n (c & Hf & _)%public_names_elem. by apply (Ht n c).
Qed.

(** In every run, each tracked name is a plain name with a file on
    disk. *)
Theorem reachable_tracked_on_disk (fs : gmap string bytes) (d : directory)
    (n : string) (c : Constraints) :
  reachable fs d -> files d !! n = Some c ->
  plain_name n /\ is_Some (disk d !! n).
Proof. intros Hr. by apply (proj1 (reachable_inv fs d Hr)). Qed.

(** In every run, what a [Serve] that returns no error has answered. *)
Lemma Serve_reachable_reply (fs : gmap string bytes) (e : Env) (q : Request)
    (name : string) (d d' : directory) (r : response) :
  reachable fs d -> Serve e q name d = Returns (inr r) d' ->
  exists c content,
    files d !! name = Some c /\ disk d !! name = Some content /\
    r = file_reply q content.
Proof.
  intros Hr. destruct (reachable_inv fs d Hr) as [Ht _].
  unfold Serve. destruct (_ || _); [done|].
  destruct (files d !! name) as [c|] eqn:Hf; [|done].
  destruct (Ht name c Hf) as [Hp [content Hd]].
  assert (forall d0, disk d0 = disk d ->
                     ServeFile q name d0 = file_reply q content) as HS.
  { intros d0 H0. apply ServeFile_plain; [done|]. by rewrite H0. }
  destruct (expired e c); [done|].
  destruct (0 <? Downloads c).
  - destruct (negb (can_Lock c)); [done|].
    destruct (Downloads c =? 1).
    + destruct (remove _ _ _) as [[] d2|]; [|done].
      intros [= <- _]. exists c, content. by rewrite HS.
    + destruct (Downloads c =? -1); [done|].
      intros [= <- _]. exists c, content. by rewrite HS.
  - intros [= <- _]. exists c, content. by rewrite HS.
Qed.

(** In every run, a [Serve] that returns no error has answered with
    [http.ServeFile] of the tracked file on disk: with its bytes, unless
    the path of the request ends in ["/index.html"] (a redirect) or has an
    element [".."] (the 400 page); never with a 404 page or a directory. *)
Theorem reachable_Serve_body (fs : gmap string bytes) (e : Env) (q : Request)
    (name : string) (d d' : directory) (r : response) :
  reachable fs d -> Serve e q name d = Returns (inr r) d' ->
  exists c content,
    files d !! name = Some c /\ disk d !! name = Some content /\
    r = file_reply q content /\
    (r = Body content \/
     (r = Redirect /\ HasSuffix (Path q) "/index.html" = true) \/
     (r = BadRequest /\ containsDotDot (Path q) = true)).
Proof.
  intros Hr Hs.
  destruct (Serve_reachable_reply fs e q name d d' r Hr Hs)
    as (c & content & Hf & Hd & ->).
  exists c, content. split; [done|]. split; [done|]. split; [done|].
  unfold file_reply.
  destruct (containsDotDot (Path q)); [by right; right|].
  destruct (HasSuffix (Path q) "/index.html"); [by right; left|by left].
Qed.

(** In every run, [List] returns a list sorted in byte order, without
    repetition, of plain names; this holds for a stale cache too. *)
Theorem reachable_List_sorted (fs : gmap string bytes) (d : directory) :
  reachable fs d ->
  StronglySorted str_le (List d).1 /\ NoDup (List d).1 /\
  forall n, n ∈ (List d).1 -> plain_name n.
Proof.
  intros Hr. destruct (reachable_inv fs d Hr) as [Ht Hs].
  unfold List. destruct (dirty (lst d)); [|exact Hs]. cbn.
  split; [apply public_names_sorted|]. split; [apply public_names_NoDup|].
  intros n (c & Hf & _)%public_names_elem. by apply (Ht n c).
Qed.

Lemma reachable_tracked_on_disk_witness :
  plain_name "a" /\
  is_Some (disk (Add (mkEnv 1000 false None false) (mkReader [x68] false) "a"
                     (mkConstraints 0 0 2 true false) (NewDirectory ∅)).2
           !! "a"%string).
Proof.
  apply (reachable_tracked_on_disk ∅
           (Add (mkEnv 1000 false None false) (mkReader [x68] false) "a"
                (mkConstraints 0 0 2 true false) (NewDirectory ∅)).2
           "a" (mkConstraints 0 0 2 true false)).
  - eapply reach_step; [apply reach_init|apply step_Add].
  - vm_compute. reflexivity.
Defined.

(** A tracked ["index.html"] asked for at ["/index.html"]: the answer is
    the redirect. *)
Lemma reachable_Serve_body_witness :
  exists c content,
    files (Add (mkEnv 1000 false None false) (mkReader [x68] false)
               "index.html" (mkConstraints 0 0 2 true false)
               (NewDirectory ∅)).2
      !! "index.html"%string = Some c /\
    disk (Add (mkEnv 1000 false None false) (mkReader [x68] false)
              "index.html" (mkConstraints 0 0 2 true false)
              (NewDirectory ∅)).2
      !! "index.html"%string = Some content /\
    Redirect = file_reply (GET "/index.html") content /\
    (Redirect = Body content \/
     (Redirect = Redirect /\
      HasSuffix (Path (GET "/index.html")) "/index.html" = true) \/
     (Redirect = BadRequest /\
      containsDotDot (Path (GET "/index.html")) = true)).
Proof.
  apply (reachable_Serve_body ∅ (mkEnv 1001 false None false)
           (GET "/index.html") "index.html"
           (Add (mkEnv 1000 false None false) (mkReader [x68] false)
                "index.html" (mkConstraints 0 0 2 true false)
                (NewDirectory ∅)).2
           (store "index.html" (mkConstraints 0 0 1 true false)
              (Add (mkEnv 1000 false None false) (mkReader [x68] false)
                   "index.html" (mkConstraints 0 0 2 true false)
                   (NewDirectory ∅)).2)).
  - eapply reach_step; [apply reach_init|apply step_Add].
  - vm_compute. reflexivity.
Defined.

Lemma reachable_List_sorted_witness :
  StronglySorted str_le
    (List (Add (mkEnv 1000 false None false) (mkReader [x68] false) "a"
               (mkConstraints 0 0 2 true false) (NewDirectory ∅)).2).1 /\
  NoDup
    (List (Add (mkEnv 1000 false None false) (mkReader [x68] false) "a"
               (mkConstraints 0 0 2 true false) (NewDirectory ∅)).2).1 /\
  forall n,
    n ∈ (List (Add (mkEnv 1000 false None false) (mkReader [x68] false) "a"
                   (mkConstraints 0 0 2 true false) (NewDirectory ∅)).2).1 ->
    plain_name n.
Proof.
  apply (reachable_List_sorted ∅).
  eapply reach_step; [apply reach_init|apply step_Add].
Defined.

(** *** The requests of the server *)

(** The server asks for a name with the path ["/" ++ name].  For a name
    with neither a slash nor a backslash, [http.ServeFile] sends the file
    to such a request exactly when the name is neither ["index.html"] nor
    [".."]: the first gets the redirect, the second the 400 page. *)
Theorem named_request_reply (q : Request) (name : string) (content : bytes) :
  Path q = String "/" name -> ContainsSlashRune name = false ->
  file_reply q content
  = (if String.eqb ".." name then BadRequest
     else if String.eqb name "index.html" then Redirect
     else Body content) /\
  (name <> ".."%string -> name <> "index.html"%string -> sends_file q).
Proof.
  intros HP Hs. unfold file_reply, sends_file. rewrite HP.
  rewrite (containsDotDot_one name Hs).
  rewrite (HasSuffix_index name (ContainsSlashRune_slash name Hs)).
  split; [done|]. intros H1 H2.
  split; apply String.eqb_neq; congruence.
Qed.

Lemma named_request_reply_witness :
  file_reply (GET "/notes.txt") [x68; x69]
  = (if String.eqb ".." "notes.txt" then BadRequest
     else if String.eqb "notes.txt" "index.html" then Redirect
     else Body [x68; x69]) /\
  ("notes.txt"%string <> ".."%string ->
   "notes.txt"%string <> "index.html"%string -> sends_file (GET "/notes.txt")).
Proof.
  apply (named_request_reply (GET "/notes.txt") "notes.txt" [x68; x69]).
  - reflexivity.
  - reflexivity.
Defined.

(** Whatever [Serve] answers without error is an answer of
    [http.ServeFile] for the request. *)
Lemma Serve_reply_ServeFile (e : Env) (q : Request) (name : string)
    (d d' : directory) (r : response) :
  Serve e q name d = Returns (inr r) d' ->
  exists d0, r = ServeFile q name d0.
Proof.
  unfold Serve. destruct (_ || _); [done|].
  destruct (files d !! name) as [c|]; [|done].
  destruct (expired e c); [done|].
  destruct (0 <? Downloads c); [|intros [= <- _]; by eexists].
  destruct (negb (can_Lock c)); [done|].
  destruct (Downloads c =? 1).
  - destruct (remove _ _ _) as [[] d2|]; [|done]. intros [= <- _]. by eexists.
  - destruct (Downloads c =? -1); [done|]. intros [= <- _]. by eexists.
Qed.

(** *** The download counter *)

Lemma expired_with_Downloads (e : Env) (c : Constraints) (n : Z) :
  expired e (with_Downloads c n) = expired e c.
Proof. done. Qed.

(** A [Serve] with more than one download left. *)
Lemma Serve_decrement (e : Env) (q : Request) (name : string) (c : Constraints)
    (content : bytes) (d : directory) :
  plain_name name -> files d !! name = Some c -> expired e c = false ->
  readers c = O -> 1 < Downloads c -> disk d !! name = Some content ->
  Serve e q name d
  = Returns (inr (file_reply q content))
      (store name (with_Downloads c (Downloads c - 1)) d).
Proof.
  intros Hp Hf He Hr Hn Hd. pose proof Hp as (Hne & Hs & _).
  unfold Serve, can_Lock. rewrite (Serve_valid_guard name Hne Hs), Hf, He, Hr.
  rewrite (proj2 (Z.ltb_lt 0 (Downloads c))) by lia.
  rewrite (proj2 (Z.eqb_neq (Downloads c) 1)) by lia.
  rewrite (proj2 (Z.eqb_neq (Downloads c) (-1))) by lia.
  simpl. by rewrite (ServeFile_plain q name _ content Hp).
Qed.

(** The [Serve] of the last download. *)
Lemma Serve_last (e : Env) (q : Request) (name : string) (c : Constraints)
    (content : bytes) (d : directory) :
  plain_name name -> files d !! name = Some c -> expired e c = false ->
  readers c = O -> Downloads c = 1 -> disk d !! name = Some content ->
  Serve e q name d
  = Returns (inr (file_reply q content))
      (mkDirectory (delete name (files d))
                   (set_dirty (Public c) (lst d))
                   (if Delete c
                    then if unlink_fault e then disk d else delete name (disk d)
                    else disk d)
                   (timers d)).
Proof.
  intros Hp Hf He Hr Hn Hd. pose proof Hp as (Hne & Hs & _).
  unfold Serve, can_Lock. rewrite (Serve_valid_guard name Hne Hs), Hf, He, Hr, Hn.
  simpl. rewrite (ServeFile_plain q name _ content Hp) by done.
  unfold remove, store, can_Lock. cbn [files]. rewrite lookup_insert_eq.
  cbn [readers with_Downloads Downloads]. rewrite Hr. simpl.
  rewrite delete_insert_eq. by rewrite (os_Remove_plain e name _ Hp).
Qed.

(** A record with [k+1] downloads left, whose lock is free and which does
    not expire during the calls, is served [k+1] times, each time with
    what [http.ServeFile] answers for its file (the bytes, or the redirect
    or the 400 page when the path of the request asks for it); the last of
    these calls removes the entry, every later [Serve] fails with "File
    not stored", and the records of the other names stay as they are. *)
Theorem download_limit (k : nat) (es : list Env) (q : Request)
    (name : string) (c : Constraints) (content : bytes) (d : directory) :
  length es = S k -> plain_name name ->
  files d !! name = Some c -> readers c = O ->
  Downloads c = Z.of_nat (S k) ->
  Forall (fun e => expired e c = false) es ->
  disk d !! name = Some content ->
  exists d',
    Serve_all es q name d
    = Returns (replicate (S k) (inr (file_reply q content))) d' /\
    files d' !! name = None /\
    (forall e q', Serve e q' name d' = Returns (inl ErrNotStored) d') /\
    forall n, n <> name -> files d' !! n = files d !! n.
Proof.
  intros Hl Hp. pose proof Hp as (Hne & Hs & _).
  revert es c d Hl. induction k as [|k IH]; intros es c d Hl Hf Hr Hn He Hd.
  - destruct es as [|e [|? ?]]; try done. apply Forall_cons in He as [He _].
    cbn [Serve_all]. rewrite (Serve_last e q name c content) by done.
    eexists. split; [reflexivity|]. cbn [files].
    split; [apply lookup_delete_eq|].
    split; [intros e' q'; apply Serve_not_stored; auto; apply lookup_delete_eq|].
    intros n Hn'. by rewrite lookup_delete_ne.
  - destruct es as [|e es]; [done|]. apply Forall_cons in He as [He Hes].
    cbn [Serve_all]. rewrite (Serve_decrement e q name c content) by (auto; lia).
    destruct (IH es (with_Downloads c (Downloads c - 1))
                (store name (with_Downloads c (Downloads c - 1)) d))
      as (d' & Hall & Hgone & Hafter & Hothers).
    + simpl in Hl. lia.
    + cbn. apply lookup_insert_eq.
    + done.
    + cbn. lia.
    + exact Hes.
    + done.
    + rewrite Hall. exists d'. split; [reflexivity|]. split; [done|].
      split; [done|]. intros n Hn'. rewrite (Hothers n Hn'). cbn.
      by rewrite lookup_insert_ne.
Qed.

Lemma download_limit_witness :
  exists d',
    Serve_all [mkEnv 1001 false None false; mkEnv 1002 false None false;
               mkEnv 1003 false None false] (GET "/a") "a"
      (mkDirectory {["a"%string := mkConstraints 0 5000 3 false false]}
                   (mkList false []) {["a"%string := [x68; x69]]} [])
    = Returns (replicate 3 (inr (Body [x68; x69]))) d' /\
    files d' !! "a"%string = None /\
    (forall e q', Serve e q' "a" d' = Returns (inl ErrNotStored) d') /\
    forall n, n <> "a"%string ->
      files d' !! n
      = files (mkDirectory {["a"%string := mkConstraints 0 5000 3 false false]}
                           (mkList false []) {["a"%string := [x68; x69]]} [])
        !! n.
Proof.
  apply (download_limit 2
           [mkEnv 1001 false None false; mkEnv 1002 false None false;
            mkEnv 1003 false None false] (GET "/a") "a"
           (mkConstraints 0 5000 3 false false) [x68; x69]
           (mkDirectory {["a"%string := mkConstraints 0 5000 3 false false]}
                        (mkList false []) {["a"%string := [x68; x69]]} [])).
  - reflexivity.
  - unfold plain_name. repeat split; discriminate.
  - reflexivity.
  - reflexivity.
  - reflexivity.
  - repeat constructor.
  - reflexivity.
Defined.

(** The last permitted download is answered with what [http.ServeFile]
    answers for the file (its bytes, or the redirect or the 400 page when
    the path of the request asks for it), and removes the entry; the file
    on disk is unlinked when the record has the [Delete] flag and the
    operating system does not refuse, and stays otherwise; the dirty flag
    is set when the record was public. *)
Theorem last_download_removes (e : Env) (q : Request) (name : string)
    (c : Constraints) (content : bytes) (d : directory) :
  plain_name name -> files d !! name = Some c -> expired e c = false ->
  readers c = O -> Downloads c = 1 -> disk d !! name = Some content ->
  exists d',
    Serve e q name d = Returns (inr (file_reply q content)) d' /\
    files d' !! name = None /\
    disk d' !! name
    = (if Delete c && negb (unlink_fault e) then None else Some content) /\
    dirty (lst d') = dirty (lst d) || Public c.
Proof.
  intros Hp Hf He Hr Hn Hd.
  rewrite (Serve_last e q name c content) by done.
  eexists. split; [reflexivity|]. cbn.
  split; [apply lookup_delete_eq|]. split.
  - destruct (Delete c), (unlink_fault e); cbn; try done.
    apply lookup_delete_eq.
  - destruct (lst d) as [dy sl]. destruct (Public c); cbn;
      by rewrite ?orb_true_r, ?orb_false_r.
Qed.

(** The single download of ["index.html"] is used up by a redirect, and
    the file is unlinked with no byte of it sent. *)
Lemma last_download_removes_witness :
  exists d',
    Serve (mkEnv 1001 false None false) (GET "/index.html") "index.html"
      (mkDirectory {["index.html"%string := mkConstraints 0 0 1 true true]}
                   (mkList false []) {["index.html"%string := [x68; x69]]} [])
    = Returns (inr Redirect) d' /\
    files d' !! "index.html"%string = None /\
    disk d' !! "index.html"%string = None /\
    dirty (lst d') = true.
Proof.
  apply (last_download_removes (mkEnv 1001 false None false)
           (GET "/index.html") "index.html"
           (mkConstraints 0 0 1 true true) [x68; x69]
           (mkDirectory {["index.html"%string := mkConstraints 0 0 1 true true]}
                        (mkList false [])
                        {["index.html"%string := [x68; x69]]} [])).
  - unfold plain_name. repeat split; discriminate.
  - reflexivity.
  - reflexivity.
  - reflexivity.
  - reflexivity.
  - reflexivity.
Defined.

(** *** Names that cannot be added again *)

(** An untracked plain name with a file on disk: the exclusive create
    fails, whatever is uploaded. *)
Lemma Add_untracked_exists (e : Env) (file : Reader) (name : string)
    (c : Constraints) (d : directory) :
  plain_name name -> open_fault e = false ->
  files d !! name = None -> is_Some (disk d !! name) ->
  Add e file name c d = (Some ErrExist, d).
Proof.
  intros Hp Ho Hf Hd. unfold Add, OpenFile.
  rewrite (plain_name_Base name Hp), String.eqb_refl. simpl.
  rewrite Ho, (plain_name_Join name Hp), Hf.
  rewrite (bool_decide_eq_false_2 (is_Some None)) by (by intros [? ?]).
  by rewrite (bool_decide_eq_true_2 _ Hd).
Qed.

(** In every run, once [Remove] has dropped a tracked name, each [Add] of
    that name fails with the error of the exclusive create and changes
    nothing: [Remove] leaves the file on disk, and the file of an
    untracked name blocks the name. *)
Theorem Remove_then_Add_fails (fs : gmap string bytes) (e : Env)
    (file : Reader) (name : string) (c c0 : Constraints) (d : directory) :
  reachable fs d -> files d !! name = Some c0 -> open_fault e = false ->
  Add e file name c (Remove name d) = (Some ErrExist, Remove name d).
Proof.
  intros Hr Hf Ho. destruct (reachable_inv fs d Hr) as [Ht _].
  destruct (Ht name c0 Hf) as [Hp Hd].
  apply Add_untracked_exists; auto. cbn. apply lookup_delete_eq.
Qed.

Lemma Remove_then_Add_fails_witness :
  Add (mkEnv 1002 false None false) (mkReader [x69] false) "a"
      (mkConstraints 0 0 0 false false)
      (Remove "a"
         (Add (mkEnv 1000 false None false) (mkReader [x68] false) "a"
              (mkConstraints 0 0 2 true false) (NewDirectory ∅)).2)
  = (Some ErrExist,
     Remove "a"
       (Add (mkEnv 1000 false None false) (mkReader [x68] false) "a"
            (mkConstraints 0 0 2 true false) (NewDirectory ∅)).2).
Proof.
  apply (Remove_then_Add_fails ∅ (mkEnv 1002 false None false)
           (mkReader [x69] false) "a" (mkConstraints 0 0 0 false false)
           (mkConstraints 0 0 2 true false)).
  - eapply reach_step; [apply reach_init|apply step_Add].
  - vm_compute. reflexivity.
  - reflexivity.
Defined.

(** After the last download of a record without the [Delete] flag
    (answered with what [http.ServeFile] answers for the file), each [Add]
    of the name fails with the error of the exclusive create: the entry is
    gone and its file is still on disk. *)
Theorem exhausted_name_blocked (e e' : Env) (q : Request) (file : Reader)
    (name : string) (c c' : Constraints) (content : bytes) (d : directory) :
  plain_name name -> files d !! name = Some c -> expired e c = false ->
  readers c = O -> Downloads c = 1 -> Delete c = false ->
  disk d !! name = Some content -> open_fault e' = false ->
  exists d',
    Serve e q name d = Returns (inr (file_reply q content)) d' /\
    files d' !! name = None /\ disk d' !! name = Some content /\
    Add e' file name c' d' = (Some ErrExist, d').
Proof.
  intros Hp Hf He Hr Hn Hdel Hd Ho.
  rewrite (Serve_last e q name c content) by done. rewrite Hdel.
  eexists. split; [reflexivity|]. cbn [files disk].
  split; [apply lookup_delete_eq|]. split; [exact Hd|].
  apply Add_untracked_exists; auto; cbn;
    first [apply lookup_delete_eq | by eexists].
Qed.

Lemma exhausted_name_blocked_witness :
  exists d',
    Serve (mkEnv 1001 false None false) (GET "/a") "a"
      (mkDirectory {["a"%string := mkConstraints 0 0 1 false false]}
                   (mkList false []) {["a"%string := [x68]]} [])
    = Returns (inr (Body [x68])) d' /\
    files d' !! "a"%string = None /\ disk d' !! "a"%string = Some [x68] /\
    Add (mkEnv 1002 false None false) (mkReader [x69] false) "a"
        (mkConstraints 0 0 0 true true) d'
    = (Some ErrExist, d').
Proof.
  apply (exhausted_name_blocked (mkEnv 1001 false None false)
           (mkEnv 1002 false None false) (GET "/a")
           (mkReader [x69] false) "a"
           (mkConstraints 0 0 1 false false) (mkConstraints 0 0 0 true true)
           [x68]
           (mkDirectory {["a"%string := mkConstraints 0 0 1 false false]}
                        (mkList false []) {["a"%string := [x68]]} []));
    try reflexivity.
  unfold plain_name. repeat split; discriminate.
Defined.

(** *** Uploads that fail half way *)

(** What [io.Copy] leaves in the file is a prefix of what the reader
    delivers. *)
Lemma Copy_prefix (e : Env) (file : Reader) :
  (Copy e file).1 `prefix_of` r_data file.
Proof.
  unfold Copy. destruct (write_room e) as [k|]; cbn.
  - destruct (Nat.leb _ _); cbn; [done|]. apply prefix_take.
  - done.
Qed.

(** When the copy of an upload under a fresh plain name fails, [Add]
    returns the error with the map as before, but the file stays on disk
    with the bytes copied so far; from then on each [Add] of the name
    fails with the error of the exclusive create. *)
Theorem failed_upload_blocks_name (e : Env) (file : Reader) (name : string)
    (c : Constraints) (err : error) (d : directory) :
  plain_name name -> open_fault e = false ->
  files d !! name = None -> disk d !! name = None ->
  (Copy e file).2 = Some err ->
  exists d',
    Add e file name c d = (Some err, d') /\
    files d' = files d /\
    disk d' !! name = Some (Copy e file).1 /\
    forall e' file' c',
      open_fault e' = false ->
      Add e' file' name c' d' = (Some ErrExist, d').
Proof.
  intros Hp Ho Hf Hd Hc. unfold Add at 1, OpenFile.
  rewrite (plain_name_Base name Hp), String.eqb_refl. simpl.
  rewrite Ho, (plain_name_Join name Hp), Hf, Hd.
  rewrite (bool_decide_eq_false_2 (is_Some None)) by (by intros [? ?]).
  simpl. destruct (Copy e file) as [written cerr]. simpl in Hc. subst cerr.
  eexists. split; [reflexivity|]. cbn. split; [done|].
  split; [apply lookup_insert_eq|].
  intros e' file' c' Ho'. apply Add_untracked_exists; auto; cbn.
  rewrite lookup_insert_eq. by eexists.
Qed.

Lemma failed_upload_blocks_name_witness :
  exists d',
    Add (mkEnv 1000 false (Some 1%nat) false) (mkReader [x68; x69] false) "a"
        (mkConstraints 0 0 0 true false) (NewDirectory ∅)
    = (Some ErrWrite, d') /\
    files d' = files (NewDirectory ∅) /\
    disk d' !! "a"%string
    = Some (Copy (mkEnv 1000 false (Some 1%nat) false)
                 (mkReader [x68; x69] false)).1 /\
    forall e' file' c',
      open_fault e' = false ->
      Add e' file' "a" c' d' = (Some ErrExist, d').
Proof.
  apply (failed_upload_blocks_name (mkEnv 1000 false (Some 1%nat) false)
           (mkReader [x68; x69] false) "a"
           (mkConstraints 0 0 0 true false) ErrWrite (NewDirectory ∅));
    try reflexivity.
  unfold plain_name. repeat split; discriminate.
Defined.

(** When the copy of an upload over a tracked plain name fails, [Add]
    returns the error and the old record stays, but its file now holds
    the bytes copied so far, a prefix of the upload: the old content is
    lost. *)
Theorem failed_overwrite_truncates (e : Env) (file : Reader) (name : string)
    (c c0 : Constraints) (err : error) (d : directory) :
  plain_name name -> open_fault e = false ->
  files d !! name = Some c0 ->
  (Copy e file).2 = Some err ->
  exists d',
    Add e file name c d = (Some err, d') /\
    files d' !! name = Some c0 /\
    disk d' !! name = Some (Copy e file).1 /\
    (Copy e file).1 `prefix_of` r_data file.
Proof.
  intros Hp Ho Hf Hc. unfold Add, OpenFile.
  rewrite (plain_name_Base name Hp), String.eqb_refl. simpl.
  rewrite Ho, (plain_name_Join name Hp), Hf.
  rewrite (bool_decide_eq_true_2 (is_Some (Some c0))) by (by eexists).
  simpl. pose proof (Copy_prefix e file) as Hpre.
  destruct (Copy e file) as [written cerr]. simpl in Hc. subst cerr.
  eexists. split; [reflexivity|]. cbn. split; [done|].
  split; [apply lookup_insert_eq|done].
Qed.

Lemma failed_overwrite_truncates_witness :
  exists d',
    Add (mkEnv 1000 false None false) (mkReader [x69] true) "a"
        (mkConstraints 0 0 0 true false)
        (mkDirectory {["a"%string := mkConstraints 0 0 5 false false]}
                     (mkList false []) {["a"%string := [x68; x68; x68]]} [])
    = (Some ErrRead, d') /\
    files d' !! "a"%string = Some (mkConstraints 0 0 5 false false) /\
    disk d' !! "a"%string
    = Some (Copy (mkEnv 1000 false None false) (mkReader [x69] true)).1 /\
    (Copy (mkEnv 1000 false None false) (mkReader [x69] true)).1
      `prefix_of` [x69].
Proof.
  apply (failed_overwrite_truncates (mkEnv 1000 false None false)
           (mkReader [x69] true) "a" (mkConstraints 0 0 0 true false)
           (mkConstraints 0 0 5 false false) ErrRead
           (mkDirectory {["a"%string := mkConstraints 0 0 5 false false]}
                        (mkList false []) {["a"%string := [x68; x68; x68]]} []));
    try reflexivity.
  unfold plain_name. repeat split; discriminate.
Defined.

(** *** Listing *)

(** When the dirty flag is set, [List] returns exactly the names whose
    record is public, sorted in byte order and without repetition, and
    clears the flag; a second [List] returns the same list and changes
    nothing. *)
Theorem List_rebuilds (d : directory) :
  dirty (lst d) = true ->
  (forall n, n ∈ (List d).1 <->
             exists c, files d !! n = Some c /\ Public c = true) /\
  StronglySorted str_le (List d).1 /\
  NoDup (List d).1 /\
  dirty (lst (List d).2) = false /\
  List (List d).2 = ((List d).1, (List d).2).
Proof.
  intros Hd. unfold List. rewrite Hd. cbn.
  split; [apply public_names_elem|].
  split; [apply public_names_sorted|].
  split; [apply public_names_NoDup|]. done.
Qed.

Lemma List_rebuilds_witness :
  (forall n,
     n ∈ (List (mkDirectory {["b"%string := mkConstraints 0 0 0 true false;
                              "a"%string := mkConstraints 0 0 0 true false;
                              "c"%string := mkConstraints 0 0 0 false false]}
                            (mkList true ["z"%string]) ∅ [])).1 <->
     exists c,
       files (mkDirectory {["b"%string := mkConstraints 0 0 0 true false;
                            "a"%string := mkConstraints 0 0 0 true false;
                            "c"%string := mkConstraints 0 0 0 false false]}
                          (mkList true ["z"%string]) ∅ []) !! n = Some c /\
       Public c = true) /\
  (List (mkDirectory {["b"%string := mkConstraints 0 0 0 true false;
                       "a"%string := mkConstraints 0 0 0 true false;
                       "c"%string := mkConstraints 0 0 0 false false]}
                     (mkList true ["z"%string]) ∅ [])).1
  = ["a"%string; "b"%string].
Proof.
  split.
  - apply (proj1 (List_rebuilds
             (mkDirectory {["b"%string := mkConstraints 0 0 0 true false;
                            "a"%string := mkConstraints 0 0 0 true false;
                            "c"%string := mkConstraints 0 0 0 false false]}
                          (mkList true ["z"%string]) ∅ []) eq_refl)).
  - vm_compute. reflexivity.
Defined.

(** After an [Add] of a fresh plain name with a public record, [List]
    contains the name, exactly once. *)
Theorem Add_public_then_List (e : Env) (file : Reader) (name : string)
    (c : Constraints) (d : directory) :
  plain_name name -> healthy e file ->
  files d !! name = None -> disk d !! name = None ->
  Public c = true ->
  exists d1,
    Add e file name c d = (None, d1) /\
    name ∈ (List d1).1 /\ NoDup (List d1).1 /\
    forall n, n ∈ (List d1).1 <->
              n = name \/ exists c0, files d !! n = Some c0 /\ Public c0 = true.
Proof.
  intros Hp Hh Hf Hd Hpub. exists (added e file name c d).
  split; [apply Add_ok; auto|].
  unfold List, added. cbn. rewrite Hpub. cbn.
  assert (forall n, n ∈ public_names (<[name:=c]> (files d)) <->
            n = name \/ exists c0, files d !! n = Some c0 /\ Public c0 = true)
    as Hn.
  { intros n. rewrite public_names_elem.
    destruct (decide (name = n)) as [<-|Hne].
    - rewrite lookup_insert_eq. split; [by left|]. intros _. by exists c.
    - rewrite lookup_insert_ne by done. split; [by right|].
      by intros [->|?]. }
  split; [apply Hn; by left|]. split; [apply public_names_NoDup|done].
Qed.

Lemma Add_public_then_List_witness :
  exists d1,
    Add (mkEnv 1000 false None false) (mkReader [x68] false) "a"
        (mkConstraints 0 0 0 true false) (NewDirectory ∅) = (None, d1) /\
    "a"%string ∈ (List d1).1 /\ NoDup (List d1).1 /\
    forall n, n ∈ (List d1).1 <->
              n = "a"%string \/
              exists c0, files (NewDirectory ∅) !! n = Some c0 /\
                         Public c0 = true.
Proof.
  apply (Add_public_then_List (mkEnv 1000 false None false)
           (mkReader [x68] false) "a" (mkConstraints 0 0 0 true false)
           (NewDirectory ∅)); try reflexivity.
  - unfold plain_name. repeat split; discriminate.
  - unfold healthy. simpl. auto.
Defined.

(** Every operation keeps the agreement between the cache and the store,
    except an [Add] that replaces a public record by one that is not
    public: [Remove], [List], [Serve] and the timers keep it always, and
    [Add] keeps it when the new record is public or the name had no
    public record. *)
Theorem cache_kept (e : Env) (q : Request) (name : string) (d : directory) :
  cache_ok d ->
  cache_ok (Remove name d) /\
  cache_ok (List d).2 /\
  (forall r d', Serve e q name d = Returns r d' -> cache_ok d') /\
  (forall i d', fire e i d = Returns tt d' -> cache_ok d') /\
  (forall file c,
     Public c = true \/
     (forall c0, files d !! name = Some c0 -> Public c0 = false) ->
     cache_ok (Add e file name c d).2).
Proof.
  intros Hc. split; [by apply Remove_cache_ok|].
  split; [by apply List_correct|].
  split; [intros r d'; by apply Serve_cache_ok|]. split.
  - intros i d'. unfold fire.
    destruct (timers d !! i) as [t|]; [|by intros [= <-]].
    by apply remove_cache_ok.
  - intros file c Hp. by apply Add_cache_ok.
Qed.

Lemma cache_kept_witness :
  cache_ok (Remove "a" (NewDirectory ∅)) /\
  cache_ok (Add (mkEnv 1000 false None false) (mkReader [x68] false) "a"
                (mkConstraints 0 0 0 false false) (NewDirectory ∅)).2.
Proof.
  destruct (cache_kept (mkEnv 1000 false None false) (GET "/a") "a"
              (NewDirectory ∅))
    as (H1 & _ & _ & _ & H5).
  - intros _. reflexivity.
  - split; [exact H1|]. apply H5. right. intros c0 H. discriminate H.
Defined.

(** *** Expiration and the timers *)

(** The state after the timer of a freshly added record has fired. *)
Lemma fire_added (e0 e1 : Env) (file : Reader) (name : string)
    (c : Constraints) (d : directory) :
  Expire c <> 0 ->
  fire e1 (length (timers d)) (added e0 file name c d)
  = remove e1 name
      (mkDirectory (<[name := c]> (files d)) (set_dirty (Public c) (lst d))
                   (<[name := r_data file]> (disk d)) (timers d)).
Proof.
  intros Hz. unfold fire, added. cbn [timers files lst disk].
  rewrite (proj2 (Z.eqb_neq _ _) Hz).
  rewrite list_lookup_middle by done. cbn [t_name].
  by rewrite delete_middle, app_nil_r.
Qed.

(** An [Add] with an expiration arms one timer; when it fires after the
    expiration instant, on a record whose lock is free, the entry is
    removed, the file is unlinked when the record has the [Delete] flag
    and the operating system does not refuse, and no timer is left. *)
Theorem timer_removes_expired (e0 e1 : Env) (file : Reader) (name : string)
    (c : Constraints) (d : directory) :
  plain_name name -> healthy e0 file ->
  is_Some (files d !! name) \/ disk d !! name = None ->
  Expire c <> 0 -> readers c = O -> Expire c < now e1 ->
  exists d1 d2,
    Add e0 file name c d = (None, d1) /\
    timers d1 = timers d ++ [mkTimer name (Sub (Expire c) (now e0))] /\
    fire e1 (length (timers d)) d1 = Returns tt d2 /\
    files d2 !! name = None /\
    timers d2 = timers d /\
    disk d2 !! name
    = if Delete c && negb (unlink_fault e1) then None
      else Some (r_data file).
Proof.
  intros Hp Hh Hfresh Hz Hr Hlt. eexists _, _.
  split; [by apply Add_ok|].
  split; [unfold added; cbn; by rewrite (proj2 (Z.eqb_neq _ _) Hz)|].
  rewrite fire_added by done.
  unfold remove, can_Lock, expired. cbn [files]. rewrite lookup_insert_eq, Hr.
  rewrite (proj2 (Z.eqb_neq _ _) Hz), (proj2 (Z.ltb_lt _ _) Hlt).
  rewrite andb_false_r. cbn -[os_Remove].
  split; [reflexivity|]. cbn -[os_Remove].
  split; [apply lookup_delete_eq|]. split; [done|].
  rewrite (os_Remove_plain e1 name _ Hp).
  destruct (Delete c), (unlink_fault e1); cbn;
    by rewrite ?lookup_delete_eq, ?lookup_insert_eq.
Qed.

Lemma timer_removes_expired_witness :
  exists d1 d2,
    Add (mkEnv 1000 false None false) (mkReader [x68] false) "a"
        (mkConstraints 0 2000 0 false true) (NewDirectory ∅) = (None, d1) /\
    timers d1 = timers (NewDirectory ∅) ++ [mkTimer "a" (Sub 2000 1000)] /\
    fire (mkEnv 2001 false None false) (length (timers (NewDirectory ∅))) d1
    = Returns tt d2 /\
    files d2 !! "a"%string = None /\
    timers d2 = timers (NewDirectory ∅) /\
    disk d2 !! "a"%string = None.
Proof.
  apply (timer_removes_expired (mkEnv 1000 false None false)
           (mkEnv 2001 false None false) (mkReader [x68] false) "a"
           (mkConstraints 0 2000 0 false true) (NewDirectory ∅)).
  - unfold plain_name. repeat split; discriminate.
  - unfold healthy. simpl. auto.
  - right. reflexivity.
  - discriminate.
  - reflexivity.
  - reflexivity.
Defined.

(** The comparison with the clock is strict: a timer that fires when the
    clock is not yet past the expiration instant (the instant itself
    included) leaves the entry and its file, and no timer is left for it.
    When the clock has passed the instant, [Serve] answers "File recently
    expired", but the entry stays tracked. *)
Theorem timer_not_after_expiry (e0 e1 e2 : Env) (q : Request)
    (file : Reader) (name : string) (c : Constraints) (d : directory) :
  plain_name name -> healthy e0 file ->
  is_Some (files d !! name) \/ disk d !! name = None ->
  Expire c <> 0 -> readers c = O -> Downloads c <> -1 ->
  now e1 <= Expire c -> Expire c < now e2 ->
  exists d1 d2 d3,
    Add e0 file name c d = (None, d1) /\
    fire e1 (length (timers d)) d1 = Returns tt d2 /\
    files d2 !! name = Some c /\
    disk d2 !! name = Some (r_data file) /\
    timers d2 = timers d /\
    Serve e2 q name d2 = Returns (inl ErrExpired) d3 /\
    is_Some (files d3 !! name).
Proof.
  intros Hp Hh Hfresh Hz Hr Hn Hle Hlt. pose proof Hp as (Hne & Hs & _).
  eexists _, _, _. split; [by apply Add_ok|].
  rewrite fire_added by done.
  unfold remove, can_Lock, expired. cbn [files]. rewrite lookup_insert_eq, Hr.
  rewrite (proj2 (Z.eqb_neq _ _) Hn), (proj2 (Z.ltb_ge _ _) Hle).
  rewrite andb_false_r. cbn.
  split; [reflexivity|]. cbn. rewrite !lookup_insert_eq.
  do 3 (split; [done|]).
  unfold Serve, expired. rewrite (Serve_valid_guard name Hne Hs).
  cbn [files]. rewrite lookup_insert_eq.
  rewrite (proj2 (Z.eqb_neq _ _) Hz), (proj2 (Z.ltb_lt _ _) Hlt). cbn.
  split; [reflexivity|]. cbn. rewrite lookup_insert_eq. by eexists.
Qed.

Lemma timer_not_after_expiry_witness :
  exists d1 d2 d3,
    Add (mkEnv 1000 false None false) (mkReader [x68] false) "a"
        (mkConstraints 0 2000 0 false true) (NewDirectory ∅) = (None, d1) /\
    fire (mkEnv 2000 false None false) (length (timers (NewDirectory ∅))) d1
    = Returns tt d2 /\
    files d2 !! "a"%string = Some (mkConstraints 0 2000 0 false true) /\
    disk d2 !! "a"%string = Some [x68] /\
    timers d2 = timers (NewDirectory ∅) /\
    Serve (mkEnv 2001 false None false) (GET "/a") "a" d2
    = Returns (inl ErrExpired) d3 /\
    is_Some (files d3 !! "a"%string).
Proof.
  apply (timer_not_after_expiry (mkEnv 1000 false None false)
           (mkEnv 2000 false None false) (mkEnv 2001 false None false)
           (GET "/a") (mkReader [x68] false) "a"
           (mkConstraints 0 2000 0 false true) (NewDirectory ∅)).
  - unfold plain_name. repeat split; discriminate.
  - unfold healthy. simpl. auto.
  - right. reflexivity.
  - discriminate.
  - reflexivity.
  - discriminate.
  - discriminate.
  - reflexivity.
Defined.

(** Once [Serve] has answered "File recently expired" for a name, it
    answers the same at every later clock value, whatever the request. *)
Theorem Expired_persists (e e' : Env) (q q' : Request) (name : string)
    (d d' : directory) :
  Serve e q name d = Returns (inl ErrExpired) d' -> now e <= now e' ->
  exists d'', Serve e' q' name d' = Returns (inl ErrExpired) d''.
Proof.
  unfold Serve at 1. destruct (_ || _) eqn:Hg; [done|].
  destruct (files d !! name) as [c|] eqn:Hf; [|done].
  destruct (expired e c) eqn:He.
  - intros [= <-] Hle. unfold Serve. rewrite Hg. cbn [store files].
    rewrite lookup_insert_eq.
    assert (expired e' (RLock c) = true) as ->; [|by eexists].
    unfold expired in *. cbn [RLock Expire].
    apply andb_true_iff in He as [-> Hlt]. apply Z.ltb_lt in Hlt.
    cbn. apply Z.ltb_lt. lia.
  - destruct (0 <? Downloads c); [|done].
    destruct (negb (can_Lock c)); [done|].
    destruct (Downloads c =? 1); [by destruct (remove _ _ _)|].
    by destruct (Downloads c =? -1).
Qed.

Lemma Expired_persists_witness :
  exists d'',
    Serve (mkEnv 9000 false None false) (GET "/a") "a"
      (store "a" (RLock (mkConstraints 0 999 2 false false))
         (mkDirectory {["a"%string := mkConstraints 0 999 2 false false]}
                      (mkList false []) {["a"%string := [x68]]} []))
    = Returns (inl ErrExpired) d''.
Proof.
  apply (Expired_persists (mkEnv 1000 false None false)
           (mkEnv 9000 false None false) (GET "/a") (GET "/a") "a"
           (mkDirectory {["a"%string := mkConstraints 0 999 2 false false]}
                        (mkList false []) {["a"%string := [x68]]} [])).
  - vm_compute. reflexivity.
  - discriminate.
Defined.

(** A record whose counter is zero or negative, the sentinel [-1]
    included, is served without limit for as long as it has not expired:
    each [Serve] answers [http.ServeFile] of its file, and the state stays
    as it is. *)
Theorem nonpositive_counter_unlimited (es : list Env) (q : Request)
    (name : string) (c : Constraints) (d : directory) :
  ContainsSlash name = false -> name <> ""%string ->
  files d !! name = Some c -> Downloads c <= 0 ->
  Forall (fun e => expired e c = false) es ->
  Serve_all es q name d
  = Returns (replicate (length es) (inr (ServeFile q name d))) d.
Proof.
  intros Hs Hne Hf Hn He. induction He as [|e es He _ IH]; [done|].
  cbn [Serve_all]. unfold Serve at 1.
  rewrite (Serve_valid_guard name Hne Hs), Hf, He.
  rewrite (proj2 (Z.ltb_ge _ _) Hn). by rewrite IH.
Qed.

Lemma nonpositive_counter_unlimited_witness :
  Serve_all [mkEnv 1001 false None false; mkEnv 1002 false None false]
    (GET "/a") "a"
    (mkDirectory {["a"%string := mkConstraints 0 0 (-1) false false]}
                 (mkList false []) {["a"%string := [x68]]} [])
  = Returns
      (replicate 2
         (inr (ServeFile (GET "/a") "a"
                 (mkDirectory {["a"%string := mkConstraints 0 0 (-1) false false]}
                              (mkList false []) {["a"%string := [x68]]} []))))
      (mkDirectory {["a"%string := mkConstraints 0 0 (-1) false false]}
                   (mkList false []) {["a"%string := [x68]]} []).
Proof.
  apply (nonpositive_counter_unlimited
           [mkEnv 1001 false None false; mkEnv 1002 false None false]
           (GET "/a") "a"
           (mkConstraints 0 0 (-1) false false)
           (mkDirectory {["a"%string := mkConstraints 0 0 (-1) false false]}
                        (mkList false []) {["a"%string := [x68]]} [])).
  - reflexivity.
  - discriminate.
  - reflexivity.
  - discriminate.
  - repeat constructor.
Defined.

Lemma expired_Serve_blocks_remove_witness :
  Serve (mkEnv 1000 false None false) (GET "/a") "a"
    (mkDirectory {["a"%string := mkConstraints 0 999 0 false true]}
                 (mkList false []) {["a"%string := [x68]]} [])
  = Returns (inl ErrExpired)
      (store "a" (RLock (mkConstraints 0 999 0 false true))
         (mkDirectory {["a"%string := mkConstraints 0 999 0 false true]}
                      (mkList false []) {["a"%string := [x68]]} [])) /\
  remove (mkEnv 5000 false None false) "a"
    (store "a" (RLock (mkConstraints 0 999 0 false true))
       (mkDirectory {["a"%string := mkConstraints 0 999 0 false true]}
                    (mkList false []) {["a"%string := [x68]]} []))
  = Blocked.
Proof.
  apply (remove_blocks_after_expired_Serve (mkEnv 1000 false None false)
           (mkEnv 5000 false None false) (GET "/a") "a"
           (mkConstraints 0 999 0 false true)
           (mkDirectory {["a"%string := mkConstraints 0 999 0 false true]}
                        (mkList false []) {["a"%string := [x68]]} [])).
  - reflexivity.
  - discriminate.
  - reflexivity.
  - reflexivity.
Defined.

End StorageMore.

(** ** Facts about the server *)

Module ShareFacts.

Import GoPath GoPathFacts Storage StorageFacts StorageMore Share.
Local Open Scope Z_scope.

Lemma bytes_Equal_refl (a : bytes) : bytes_Equal a a = true.
Proof.
  induction a as [|x a IH]; [done|]. simpl.
  by rewrite (Byte.byte_dec_lb (eq_refl x)), IH.
Qed.

Section Server.

Variable hash : string -> bytes.
Variable parseExpire : string -> option Z.
Variable Atoi : string -> option Z.
Variable QueryEscape : string -> string.

Local Abbreviation handleAdd :=
  (Share.handleAdd hash parseExpire Atoi QueryEscape).
Local Abbreviation ServeHTTP :=
  (Share.ServeHTTP hash parseExpire Atoi QueryEscape).
Local Abbreviation http_reachable :=
  (Share.http_reachable hash parseExpire Atoi QueryEscape).

(** What [handleAdd] does to the store: nothing, or one [Add] of a record
    with a free lock and a counter that is zero or at least one. *)
Lemma handleAdd_cases (e : Env) (r : Request) (s s' : Server) (msg : string) :
  handleAdd e r s = (msg, s') ->
  passwordHash s' = passwordHash s /\
  (storage s' = storage s \/
   exists file name c,
     storage s' = (Add e file name c (storage s)).2 /\
     readers c = O /\ (Downloads c = 0 \/ 1 <= Downloads c)).
Proof.
  unfold Share.handleAdd. intros H.
  repeat case_match; simplify_eq; (split; [done|]); auto; right;
    match goal with
    | Ha : Add _ ?file ?name ?c _ = _ |- _ =>
        exists file, name, c; rewrite Ha; (split; [done|]); cbn
    end.
  all: split; [done|].
  all: repeat match goal with
         | Hn : (if ?b then _ else _) = Some _ |- _ =>
             destruct b eqn:?; simplify_eq
         end.
  all: try (by left).
  all: right;
    match goal with
    | Hd : negb _ && (_ <? 1) = false |- _ =>
        rewrite andb_false_iff in Hd; destruct Hd as [Hd|Hd];
          [by rewrite negb_false_iff in Hd; simplify_eq
          |by apply Z.ltb_ge in Hd]
    end.
Qed.

(** What an answered request does to the store. *)
Lemma ServeHTTP_cases (e : Env) (r : Request) (s s' : Server) (a : reply) :
  ServeHTTP e r s = Replies a s' ->
  passwordHash s' = passwordHash s /\
  (storage s' = storage s \/
   (exists file name c,
      storage s' = (Add e file name c (storage s)).2 /\
      readers c = O /\ (Downloads c = 0 \/ 1 <= Downloads c)) \/
   storage s' = (List (storage s)).2 \/
   exists name r0, Serve e r name (storage s) = Returns r0 (storage s')).
Proof.
  unfold Share.ServeHTTP. destruct (String.eqb (Path r) "/").
  - destruct (negb _).
    + destruct (handleAdd e r s) as [msg s0] eqn:Hh. intros [= _ <-].
      destruct (handleAdd_cases e r s s0 msg Hh) as [Hp [H|H]]; auto.
    + destruct (List (storage s)) as [names d'] eqn:Hl. intros [= _ <-].
      split; [done|]. right. right. by left.
  - destruct (Path r) as [|c name]; [done|].
    destruct (Serve e r name (storage s)) as [[err|f] d'|] eqn:Hs; [| |done];
      intros [= _ <-]; (split; [done|]); do 3 right; by eexists _, _.
Qed.

(** The store of a server run is a store run. *)
Lemma http_reachable_store (fs : gmap string bytes) (password : string)
    (s : Server) :
  http_reachable fs password s -> reachable fs (storage s).
Proof.
  induction 1 as [|e r s s' a _ IH Hr|e i s d' _ IH Hf].
  - apply reach_init.
  - destruct (ServeHTTP_cases e r s s' a Hr)
      as [_ [->|[(file & name & c & -> & _)|[->|(name & r0 & Hs)]]]].
    + done.
    + eapply reach_step; [exact IH|apply step_Add].
    + eapply reach_step; [exact IH|apply step_List].
    + eapply reach_step; [exact IH|by eapply step_Serve].
  - eapply reach_step; [exact IH|by eapply step_fire].
Qed.

Lemma Add_counters_ok (e : Env) (file : Reader) (name : string)
    (c : Constraints) (d : directory) :
  0 <= Downloads c -> counters_ok d -> counters_ok (Add e file name c d).2.
Proof.
  intros Hc Hd. unfold Add. destruct (negb _); [done|].
  destruct (OpenFile _ _ _ _) as [?|[f fs]]; [done|].
  destruct (Copy e file) as [written [err|]]; [done|].
  intros n c' Hn. cbn in Hn.
  destruct (decide (name = n)) as [<-|Hne].
  - rewrite lookup_insert_eq in Hn. by injection Hn as <-.
  - rewrite lookup_insert_ne in Hn by done. by apply (Hd n).
Qed.

Lemma remove_counters_ok (e : Env) (name : string) (d d' : directory) :
  (forall n c, n <> name -> files d !! n = Some c -> 0 <= Downloads c) ->
  (forall c, files d !! name = Some c -> 0 <= Downloads c \/ Downloads c = -1) ->
  (forall c, files d !! name = Some c -> readers c = O) \/ counters_ok d ->
  remove e name d = Returns tt d' -> counters_ok d'.
Proof.
  intros Ho Hn Hl. unfold remove.
  destruct (files d !! name) as [c|] eqn:Hf.
  2: { intros [= <-] n c Hc. destruct (decide (n = name)) as [->|Hne];
         [congruence|by apply (Ho n)]. }
  destruct (negb (can_Lock c)); [done|].
  destruct (Downloads c =? -1) eqn:E; simpl.
  - intros [= <-] n c' Hc. cbn in Hc.
    destruct (decide (name = n)) as [<-|Hne];
      [by rewrite lookup_delete_eq in Hc|].
    rewrite lookup_delete_ne in Hc by done. by apply (Ho n).
  - apply Z.eqb_neq in E. destruct (negb (expired e c)).
    + intros [= <-] n c' Hc. destruct (decide (n = name)) as [->|Hne].
      * rewrite Hf in Hc. injection Hc as <-.
        destruct (Hn c eq_refl); [done|lia].
      * by apply (Ho n).
    + intros [= <-] n c' Hc. cbn in Hc.
      destruct (decide (name = n)) as [<-|Hne];
        [by rewrite lookup_delete_eq in Hc|].
      rewrite lookup_delete_ne in Hc by done. by apply (Ho n).
Qed.

Lemma store_counters_ok (name : string) (c : Constraints) (d : directory) :
  0 <= Downloads c -> counters_ok d -> counters_ok (store name c d).
Proof.
  intros Hc Hd n c' Hn. cbn in Hn.
  destruct (decide (name = n)) as [<-|Hne].
  - rewrite lookup_insert_eq in Hn. by injection Hn as <-.
  - rewrite lookup_insert_ne in Hn by done. by apply (Hd n).
Qed.

Lemma Serve_counters_ok (e : Env) (q : Request) (name : string)
    (d d' : directory) (r : error + response) :
  counters_ok d -> Serve e q name d = Returns r d' -> counters_ok d'.
Proof.
  unfold Serve. intros Hd. destruct (_ || _); [by intros [= _ <-]|].
  destruct (files d !! name) as [c|] eqn:Hf; [|by intros [= _ <-]].
  pose proof (Hd name c Hf) as Hc.
  destruct (expired e c).
  { intros [= _ <-]. by apply store_counters_ok. }
  destruct (0 <? Downloads c) eqn:Hpos; [|by intros [= _ <-]].
  apply Z.ltb_lt in Hpos.
  destruct (negb (can_Lock c)); [done|].
  destruct (Downloads c =? 1) eqn:E1.
  - destruct (remove _ _ _) as [[] d2|] eqn:Hr; [|done]. intros [= _ <-].
    eapply remove_counters_ok; [| | |exact Hr].
    + intros n c' Hne Hn. cbn in Hn. rewrite lookup_insert_ne in Hn by done.
      by apply (Hd n).
    + intros c' Hn. cbn in Hn. rewrite lookup_insert_eq in Hn.
      injection Hn as <-. by right.
    + left. intros c' Hn. cbn in Hn. rewrite lookup_insert_eq in Hn.
      injection Hn as <-. cbn. revert Hr. unfold remove, store. cbn [files].
      rewrite lookup_insert_eq. unfold can_Lock. cbn [readers with_Downloads].
      by destruct (readers c).
  - destruct (Downloads c =? -1); intros [= _ <-]; [done|].
    apply Z.eqb_neq in E1. apply store_counters_ok; [cbn; lia|done].
Qed.

Lemma fire_counters_ok (e : Env) (i : nat) (d d' : directory) :
  counters_ok d -> fire e i d = Returns tt d' -> counters_ok d'.
Proof.
  unfold fire. intros Hd. destruct (timers d !! i) as [t|]; [|by intros [= <-]].
  apply remove_counters_ok.
  - intros n c _ Hn. by apply (Hd n).
  - intros c Hn. left. by apply (Hd (t_name t)).
  - by right.
Qed.

(** An [Add] that succeeds has stored its record under the name, and left
    every other record as it was. *)
Lemma Add_files_ok (e : Env) (file : Reader) (name : string)
    (c : Constraints) (d d' : directory) :
  Add e file name c d = (None, d') -> files d' = <[name := c]> (files d).
Proof.
  unfold Add. destruct (negb _); [done|].
  destruct (OpenFile _ _ _ _) as [?|[f fs]]; [done|].
  destruct (Copy e file) as [written [err|]]; [done|]. by intros [= <-].
Qed.

(** What [handleAdd] does to the records: it leaves the password hash as
    it is, and either leaves the whole map as it is, or answers with the
    direct link and stores one record under the name of the upload, every
    record of another name staying as it is.  The record stored has a free
    lock, a counter that is zero (blank field) or at least one, and the
    [Public] and [Delete] flags of the form. *)
Theorem handleAdd_record (e : Env) (r : Request) (s s' : Server)
    (msg : string) :
  handleAdd e r s = (msg, s') ->
  passwordHash s' = passwordHash s /\
  (files (storage s') = files (storage s) \/
   exists c,
     files (storage s') = <[upload_name r := c]> (files (storage s)) /\
     msg = ("Direct link: http://" +:+ Host r +:+ "/"
              +:+ QueryEscape (upload_name r))%string /\
     readers c = O /\ (Downloads c = 0 \/ 1 <= Downloads c) /\
     Public c = negb (String.eqb (FormValue r "public") "") /\
     Delete c = negb (String.eqb (FormValue r "delete") "")).
Proof.
  unfold Share.handleAdd, upload_name. intros H.
  destruct (negb (bytes_Equal _ _)); [by simplify_eq; auto|].
  destruct (FormFile r) as [[file filename]|]; [|by simplify_eq; auto].
  destruct (String.eqb (if String.eqb (FormValue r "name") "" then filename
                        else FormValue r "name") ""); [by simplify_eq; auto|].
  destruct (if String.eqb (FormValue r "expire") "" then Some 0
            else parseExpire (FormValue r "expire")) as [expire|];
    [|by simplify_eq; auto].
  destruct (if String.eqb (FormValue r "downloads") "" then Some 0
            else Atoi (FormValue r "downloads")) as [downloads|] eqn:Hn;
    [|by simplify_eq; auto].
  destruct (negb (String.eqb (FormValue r "downloads") "") && (downloads <? 1))
    eqn:Hd; [by simplify_eq; auto|].
  destruct (Add e file _ _ (storage s)) as [[err|] d'] eqn:Ha;
    injection H as <- <-; cbn [passwordHash storage]; (split; [done|]).
  - left. by destruct (Add_error_frame _ _ _ _ _ _ _ Ha) as [-> _].
  - right. eexists. split; [exact (Add_files_ok _ _ _ _ _ _ Ha)|].
    split; [done|]. split; [done|]. split; [|done]. cbn [Downloads].
    destruct (String.eqb (FormValue r "downloads") ""); simplify_eq.
    + by left.
    + right. by apply Z.ltb_ge in Hd.
Qed.

(** In every run of the server (answered requests and timers), no tracked
    record has a negative counter: the sentinel [-1] that [Serve] writes
    for the last download is gone when [Serve] returns. *)
Theorem http_counters_nonneg (fs : gmap string bytes) (password : string)
    (s : Server) :
  http_reachable fs password s -> counters_ok (storage s).
Proof.
  induction 1 as [|e r s s' a _ IH Hr|e i s d' _ IH Hf].
  - by intros n c.
  - destruct (ServeHTTP_cases e r s s' a Hr)
      as [_ [->|[(file & name & c & -> & _ & Hd)|[->|(name & r0 & Hs)]]]].
    + done.
    + apply Add_counters_ok; [lia|done].
    + unfold List. by destruct (dirty _).
    + by eapply Serve_counters_ok.
  - by eapply fire_counters_ok.
Qed.

(** An upload through the form, with the right password, a plain name, no
    expiration and no download limit, is answered with the direct link,
    and a request for the path of that name is then answered with what
    [http.ServeFile] answers for the uploaded file, as often as it is
    made: with the uploaded bytes, unless the path ends in ["/index.html"]
    (the name is ["index.html"]: a redirect) or has an element [".."]
    (the 400 page). *)
Theorem upload_then_download (e e' : Env) (r r' : Request) (s : Server)
    (file : Reader) (filename name : string) :
  Path r = "/"%string -> FormValue r "upload" <> ""%string ->
  hash (FormValue r "password") = passwordHash s ->
  FormFile r = Some (file, filename) ->
  name = (if String.eqb (FormValue r "name") "" then filename
          else FormValue r "name") ->
  plain_name name ->
  FormValue r "expire" = ""%string -> FormValue r "downloads" = ""%string ->
  healthy e file ->
  is_Some (files (storage s) !! name) \/ disk (storage s) !! name = None ->
  Path r' = String "/" name ->
  exists s',
    ServeHTTP e r s
    = Replies (MessagePage ("Direct link: http://" +:+ Host r +:+ "/"
                              +:+ QueryEscape name)) s' /\
    ServeHTTP e' r' s'
    = Replies (FileReply (file_reply r' (r_data file))) s' /\
    file_reply r' (r_data file)
    = (if containsDotDot (String "/" name) then BadRequest
       else if HasSuffix (String "/" name) "/index.html" then Redirect
       else Body (r_data file)).
Proof.
  intros HP Hu Hpw Hf Hname Hp Hx Hdl Hh Hfresh HP'.
  pose proof Hp as (Hne & Hs & _).
  unfold Share.ServeHTTP at 1, Share.handleAdd.
  rewrite HP, Hpw, bytes_Equal_refl, Hf, <- Hname, Hx, Hdl. cbn.
  destruct (String.eqb_spec (FormValue r "upload") ""); [done|].
  destruct (String.eqb_spec name ""); [done|]. cbn.
  rewrite Add_ok by done.
  eexists. split; [reflexivity|].
  split; [|by unfold file_reply; rewrite HP'].
  unfold Share.ServeHTTP. rewrite HP'.
  destruct (String.eqb_spec (String "/" name) "/") as [[=]|_]; [done|].
  cbn [storage].
  rewrite (Serve_unlimited e' r' name
             (mkConstraints 0 0 0 (negb (String.eqb (FormValue r "public") ""))
                            (negb (String.eqb (FormValue r "delete") "")))
             (r_data file)); try done.
  - cbn. apply lookup_insert_eq.
  - cbn. apply lookup_insert_eq.
Qed.

(** In every run of the server, a request for a path other than ["/"]
    that is answered gets the 404 page, or what [http.ServeFile] answers
    for the tracked file named by the path without its first byte: the
    bytes on disk, unless the path ends in ["/index.html"] (a redirect) or
    has an element [".."] (the 400 page). *)
Theorem GET_reply (fs : gmap string bytes) (password : string) (e : Env)
    (r : Request) (s s' : Server) (a : reply) :
  http_reachable fs password s -> Path r <> "/"%string ->
  ServeHTTP e r s = Replies a s' ->
  a = NotFoundPage \/
  exists c content,
    files (storage s) !! sliceFrom 1 (Path r) = Some c /\
    disk (storage s) !! sliceFrom 1 (Path r) = Some content /\
    a = FileReply (file_reply r content).
Proof.
  intros Hr HP. apply http_reachable_store in Hr.
  unfold Share.ServeHTTP. destruct (String.eqb_spec (Path r) "/"); [done|].
  destruct (Path r) as [|c0 name] eqn:HPr; [done|]. cbn [sliceFrom].
  destruct (Serve e r name (storage s)) as [[err|f] d'|] eqn:Hs; [| |done].
  - intros [= <- _]. by left.
  - intros [= <- _]. right.
    destruct (Serve_reachable_reply fs e r name (storage s) d' f Hr Hs)
      as (c & content & Hf & Hd & ->).
    by exists c, content.
Qed.

(** A request for ["/"] whose password does not hash to the stored hash
    is answered, with "Wrong password." when it is an upload and with the
    list otherwise; an upload leaves the server as it is, and the list
    changes neither the map, nor the disk, nor the timers. *)
Theorem wrong_password_changes_nothing (e : Env) (r : Request) (s : Server) :
  bytes_Equal (hash (FormValue r "password")) (passwordHash s) = false ->
  Path r = "/"%string ->
  exists a s',
    ServeHTTP e r s = Replies a s' /\
    a = (if String.eqb (FormValue r "upload") ""
         then ListPage (List (storage s)).1
         else MessagePage "Wrong password.") /\
    s' = (if String.eqb (FormValue r "upload") ""
          then mkServer (passwordHash s) (List (storage s)).2
          else s) /\
    passwordHash s' = passwordHash s /\
    files (storage s') = files (storage s) /\
    disk (storage s') = disk (storage s) /\
    timers (storage s') = timers (storage s).
Proof.
  intros Hpw HP. unfold Share.ServeHTTP, Share.handleAdd. rewrite HP, Hpw. cbn.
  destruct (String.eqb (FormValue r "upload") ""); cbn.
  - destruct (List (storage s)) as [names d'] eqn:Hl. eexists _, _.
    split; [reflexivity|]. cbn. split; [done|]. split; [done|].
    split; [done|]. revert Hl. unfold List.
    by destruct (dirty _); intros [= _ <-].
  - eexists _, _. split; [reflexivity|]. done.
Qed.

(** The server never sends a file named ["index.html"]: a request for
    ["/index.html"] that is answered gets the 404 page or the redirect to
    ["./"], whatever the store holds. *)
Theorem index_html_never_sent (e : Env) (r : Request) (s s' : Server)
    (a : reply) :
  Path r = "/index.html"%string ->
  ServeHTTP e r s = Replies a s' ->
  a = NotFoundPage \/ a = FileReply Redirect.
Proof.
  intros HP. unfold Share.ServeHTTP. rewrite HP.
  change (String.eqb "/index.html" "/") with false. cbv iota.
  destruct (Serve e r "index.html" (storage s)) as [[err|f] d'|] eqn:Hs;
    [| |done].
  - intros [= <- _]. by left.
  - intros [= <- _]. right.
    destruct (Serve_reply_ServeFile _ _ _ _ _ _ Hs) as [d0 ->].
    unfold ServeFile. by rewrite HP.
Qed.

End Server.

(** The upload of ["index.html"] gives a direct link that leads to the
    redirect. *)
Lemma index_html_never_sent_witness :
  let s1 := (Share.handleAdd sample_hash (fun _ => None) (fun _ => None) id
               (mkEnv 1000 false None false)
               (sample_upload "secret" "index.html")
               (New sample_hash (NewDirectory ∅) "secret")) in
  s1.1 = "Direct link: http://host/index.html"%string /\
  disk (storage s1.2) !! "index.html"%string = Some [x68; x69] /\
  (FileReply Redirect = NotFoundPage \/ FileReply Redirect = FileReply Redirect).
Proof.
  intros s1. split; [reflexivity|]. split; [reflexivity|].
  apply (index_html_never_sent sample_hash (fun _ => None) (fun _ => None) id
           (mkEnv 2000 false None false) (GET "/index.html") s1.2 s1.2
           (FileReply Redirect)).
  - reflexivity.
  - vm_compute. reflexivity.
Defined.

(** An upload of ["a"] to a server that tracks ["b"]. *)
Lemma handleAdd_record_witness :
  let s0 := mkServer (sample_hash "secret")
              (mkDirectory {["b"%string := mkConstraints 0 0 3 true false]}
                           (mkList false ["b"%string])
                           {["b"%string := [x69]]} []) in
  let r := sample_upload "secret" "a" in
  let out := Share.handleAdd sample_hash (fun _ => None) (fun _ => None) id
               (mkEnv 1000 false None false) r s0 in
  passwordHash out.2 = passwordHash s0 /\
  (files (storage out.2) = files (storage s0) \/
   exists c,
     files (storage out.2) = <[upload_name r := c]> (files (storage s0)) /\
     out.1 = ("Direct link: http://" +:+ Host r +:+ "/"
                +:+ id (upload_name r))%string /\
     readers c = O /\ (Downloads c = 0 \/ 1 <= Downloads c) /\
     Public c = negb (String.eqb (FormValue r "public") "") /\
     Delete c = negb (String.eqb (FormValue r "delete") "")).
Proof.
  intros s0 r out.
  apply (handleAdd_record sample_hash (fun _ => None) (fun _ => None) id
           (mkEnv 1000 false None false) r s0 out.2 out.1).
  apply surjective_pairing.
Defined.

Lemma http_counters_nonneg_witness :
  counters_ok
    (storage (Share.handleAdd sample_hash (fun _ => None) (fun _ => None) id
                (mkEnv 1000 false None false) (sample_upload "secret" "a")
                (New sample_hash (NewDirectory ∅) "secret")).2).
Proof.
  apply (http_counters_nonneg sample_hash (fun _ => None) (fun _ => None) id
           ∅ "secret").
  eapply (http_request _ _ _ _ _ _ (mkEnv 1000 false None false)
            (sample_upload "secret" "a")).
  - apply http_init.
  - vm_compute. reflexivity.
Defined.

Lemma upload_then_download_witness :
  exists s',
    Share.ServeHTTP sample_hash (fun _ => None) (fun _ => None) id
      (mkEnv 1000 false None false) (sample_upload "secret" "a")
      (New sample_hash (NewDirectory ∅) "secret")
    = Replies (MessagePage ("Direct link: http://" +:+ "host" +:+ "/"
                              +:+ id "a"%string)) s' /\
    Share.ServeHTTP sample_hash (fun _ => None) (fun _ => None) id
      (mkEnv 2000 false None false)
      (mkRequest "/a" "host" (fun _ => ""%string) None) s'
    = Replies (FileReply
                 (file_reply (mkRequest "/a" "host" (fun _ => ""%string) None)
                    [x68; x69])) s' /\
    file_reply (mkRequest "/a" "host" (fun _ => ""%string) None) [x68; x69]
    = Body [x68; x69].
Proof.
  apply (upload_then_download sample_hash (fun _ => None) (fun _ => None) id
           (mkEnv 1000 false None false) (mkEnv 2000 false None false)
           (sample_upload "secret" "a")
           (mkRequest "/a" "host" (fun _ => ""%string) None)
           (New sample_hash (NewDirectory ∅) "secret")
           (mkReader [x68; x69] false) "file.txt" "a").
  - reflexivity.
  - discriminate.
  - reflexivity.
  - reflexivity.
  - reflexivity.
  - unfold plain_name. repeat split; discriminate.
  - reflexivity.
  - reflexivity.
  - unfold healthy. simpl. auto.
  - right. reflexivity.
  - reflexivity.
Defined.

(** After the upload of ["a"], the request for ["/a"] gets the bytes. *)
Lemma GET_reply_witness :
  let s1 := (Share.handleAdd sample_hash (fun _ => None) (fun _ => None) id
               (mkEnv 1000 false None false) (sample_upload "secret" "a")
               (New sample_hash (NewDirectory ∅) "secret")).2 in
  FileReply (Body [x68; x69]) = NotFoundPage \/
  exists c content,
    files (storage s1) !! sliceFrom 1 (Path (GET "/a")) = Some c /\
    disk (storage s1) !! sliceFrom 1 (Path (GET "/a")) = Some content /\
    FileReply (Body [x68; x69]) = FileReply (file_reply (GET "/a") content).
Proof.
  intros s1.
  apply (GET_reply sample_hash (fun _ => None) (fun _ => None) id
           ∅ "secret" (mkEnv 2000 false None false) (GET "/a") s1 s1
           (FileReply (Body [x68; x69]))).
  - eapply (http_request _ _ _ _ _ _ (mkEnv 1000 false None false)
              (sample_upload "secret" "a")).
    + apply http_init.
    + vm_compute. reflexivity.
  - discriminate.
  - vm_compute. reflexivity.
Defined.

(** An upload with a wrong password to a server that tracks ["b"]. *)
Lemma wrong_password_changes_nothing_witness :
  let s0 := mkServer (sample_hash "secret")
              (mkDirectory {["b"%string := mkConstraints 0 0 3 true false]}
                           (mkList true [])
                           {["b"%string := [x69]]} []) in
  let r := sample_upload "guess" "a" in
  exists a s',
    Share.ServeHTTP sample_hash (fun _ => None) (fun _ => None) id
      (mkEnv 1000 false None false) r s0 = Replies a s' /\
    a = MessagePage "Wrong password." /\
    s' = s0 /\
    passwordHash s' = passwordHash s0 /\
    files (storage s') = files (storage s0) /\
    disk (storage s') = disk (storage s0) /\
    timers (storage s') = timers (storage s0).
Proof.
  intros s0 r.
  apply (wrong_password_changes_nothing sample_hash (fun _ => None)
           (fun _ => None) id (mkEnv 1000 false None false) r s0).
  - reflexivity.
  - reflexivity.
Defined.

End ShareFacts.
